(** * AutoPaySystem: a shallow embedding of the contract and its properties

    The contract [AutoPaySystem] keeps payment rules and subscriptions in
    Solidity mappings keyed by strings, two enumeration arrays and an index
    from a rule to its subscriptions.  Every external function is embedded
    as a computation over the contract storage, statement by statement: a
    [require] that fails aborts at that point and the storage reached so
    far is kept in the outcome, so that "no write precedes a failing check"
    is a property of the code below and not of the encoding. *)

From Stdlib Require Import NArith String List Lia.
From stdpp Require Import gmap strings list fin_maps.

Local Open Scope string_scope.
Local Open Scope N_scope.
Local Open Scope list_scope.

(** ** Value types *)

(** [address] is a 160-bit and [uint256] a 256-bit unsigned integer; the
    contract never does arithmetic on them, only comparison and storage. *)
Definition address := N.
Definition uint256 := N.
(** An [euint32] ciphertext handle, an [externalEuint32] and a [bytes32]
    are all one 32-byte word. *)
Definition bytes32 := N.
Definition euint32 := bytes32.
Definition externalEuint32 := bytes32.
Definition bytes := list Byte.byte.

Module PaymentRule.
Record t := mk {
  ruleId : string;
  encryptedThreshold : euint32;
  publicThreshold : uint256;
  recipient : address;
  description : string;
  creator : address;
  timestamp : uint256;
  isActive : bool
}.
(** The value a mapping yields at a key never written. *)
Definition zero : t := mk "" 0 0 0 "" 0 0 false.
End PaymentRule.

Module Subscription.
Record t := mk {
  subscriptionId : string;
  ruleId : string;
  subscriber : address;
  lastPaymentTimestamp : uint256;
  isActive : bool
}.
Definition zero : t := mk "" "" 0 0 false.
End Subscription.

#[global] Instance PaymentRule_inhabited : Inhabited PaymentRule.t :=
  populate PaymentRule.zero.
#[global] Instance Subscription_inhabited : Inhabited Subscription.t :=
  populate Subscription.zero.

(** ** Contract storage

    A Solidity mapping is total; [m !!! k] reads it, giving the zero value
    at a key that was never written. *)
Record Storage := mkStorage {
  paymentRules : gmap string PaymentRule.t;
  subscriptions : gmap string Subscription.t;
  ruleSubscriptions : gmap string (list string);
  ruleIds : list string;
  subscriptionIds : list string
}.

(** The storage of a freshly deployed contract. *)
Definition deployed : Storage := mkStorage ∅ ∅ ∅ [] [].

(** ** Events and calls into the ACL *)
Inductive Event :=
| PaymentRuleCreated (ruleId : string) (creator : address)
| SubscriptionCreated (subscriptionId ruleId : string) (subscriber : address)
| PaymentExecuted (subscriptionId ruleId : string) (recipient : address).

Inductive Effect :=
| Emit (e : Event)
| AllowThis (h : euint32)
| MakePubliclyDecryptable (h : euint32).

(** ** Failures

    A [require] carries its message; the library calls revert with errors
    of their own, and [abi.decode] reverts on a malformed encoding. *)
Inductive Failure :=
| RequireFailed (msg : string)
| FromExternalReverted
| CheckSignaturesReverted
| AbiDecodeReverted.

(** The error taxonomy of the design document. *)
Inductive Error :=
| DuplicateId | NotFound | Unauthorized | InactiveEntity
| InvalidCiphertext | InvalidProof | ThresholdNotMet.

Definition taxonomy (f : Failure) : option Error :=
  match f with
  | RequireFailed msg =>
      if String.eqb msg "Rule already exists" then Some DuplicateId
      else if String.eqb msg "Subscription already exists" then Some DuplicateId
      else if String.eqb msg "Invalid encrypted input" then Some InvalidCiphertext
      else if String.eqb msg "Rule does not exist" then Some NotFound
      else if String.eqb msg "Subscription does not exist" then Some NotFound
      else if String.eqb msg "Rule is not active" then Some InactiveEntity
      else if String.eqb msg "Subscription is not active" then Some InactiveEntity
      else if String.eqb msg "Threshold not met" then Some ThresholdNotMet
      else if String.eqb msg "Only creator can disable rule" then Some Unauthorized
      else if String.eqb msg "Only subscriber can disable subscription"
      then Some Unauthorized
      else None
  | FromExternalReverted => Some InvalidCiphertext
  | CheckSignaturesReverted => Some InvalidProof
  | AbiDecodeReverted => Some InvalidProof
  end.

(** ** The execution monad *)
Inductive Outcome (A : Type) :=
| Returned (a : A) (s : Storage) (log : list Effect)
| Reverted (f : Failure) (s : Storage) (log : list Effect).
Arguments Returned {A} a s log.
Arguments Reverted {A} f s log.

Definition Exec (A : Type) : Type := Storage → Outcome A.

#[global] Instance Exec_ret : MRet Exec := λ A a s, Returned a s [].
#[global] Instance Exec_bind : MBind Exec := λ A B k m s,
  match m s with
  | Returned a s1 l1 =>
      match k a s1 with
      | Returned b s2 l2 => Returned b s2 (l1 ++ l2)
      | Reverted f s2 l2 => Reverted f s2 (l1 ++ l2)
      end
  | Reverted f s1 l1 => Reverted f s1 l1
  end.

Definition sload : Exec Storage := λ s, Returned s s [].
Definition sstore (upd : Storage → Storage) : Exec unit :=
  λ s, Returned tt (upd s) [].
Definition effect (e : Effect) : Exec unit := λ s, Returned tt s [e].
Definition emit (e : Event) : Exec unit := effect (Emit e).
Definition revert {A} (f : Failure) : Exec A := λ s, Reverted f s [].
Definition require (cond : bool) (msg : string) : Exec unit :=
  if cond then mret tt else revert (RequireFailed msg).

(** What a caller observes: the receipt of a transaction, and the storage
    after it.  A reverted transaction is rolled back by the ledger. *)
Inductive Receipt (A : Type) :=
| Success (a : A) (log : list Effect)
| Failed (f : Failure).
Arguments Success {A} a log.
Arguments Failed {A} f.

Definition receipt {A} (m : Exec A) (s : Storage) : Receipt A :=
  match m s with
  | Returned a _ l => Success a l
  | Reverted f _ _ => Failed f
  end.

Definition commit {A} (m : Exec A) (s : Storage) : Storage :=
  match m s with
  | Returned _ s' _ => s'
  | Reverted _ _ _ => s
  end.

(** [m] fails with the named error of the taxonomy. *)
Definition failsWith {A} (m : Exec A) (s : Storage) (e : Error) : Prop :=
  ∃ f, receipt m s = Failed f ∧ taxonomy f = Some e.

(** ** Storage writes used by the contract *)
Definition set_paymentRule (k : string) (r : PaymentRule.t) (s : Storage) :=
  mkStorage (<[k := r]> (paymentRules s)) (subscriptions s)
            (ruleSubscriptions s) (ruleIds s) (subscriptionIds s).
Definition set_subscription (k : string) (b : Subscription.t) (s : Storage) :=
  mkStorage (paymentRules s) (<[k := b]> (subscriptions s))
            (ruleSubscriptions s) (ruleIds s) (subscriptionIds s).
Definition push_ruleSubscriptions (k v : string) (s : Storage) :=
  mkStorage (paymentRules s) (subscriptions s)
            (<[k := (ruleSubscriptions s !!! k) ++ [v]]> (ruleSubscriptions s))
            (ruleIds s) (subscriptionIds s).
Definition push_ruleIds (v : string) (s : Storage) :=
  mkStorage (paymentRules s) (subscriptions s) (ruleSubscriptions s)
            (ruleIds s ++ [v]) (subscriptionIds s).
Definition push_subscriptionIds (v : string) (s : Storage) :=
  mkStorage (paymentRules s) (subscriptions s) (ruleSubscriptions s)
            (ruleIds s) (subscriptionIds s ++ [v]).

Definition with_rule_isActive (b : bool) (r : PaymentRule.t) : PaymentRule.t :=
  PaymentRule.mk (PaymentRule.ruleId r) (PaymentRule.encryptedThreshold r)
    (PaymentRule.publicThreshold r) (PaymentRule.recipient r)
    (PaymentRule.description r) (PaymentRule.creator r)
    (PaymentRule.timestamp r) b.
Definition with_sub_isActive (b : bool) (u : Subscription.t) : Subscription.t :=
  Subscription.mk (Subscription.subscriptionId u) (Subscription.ruleId u)
    (Subscription.subscriber u) (Subscription.lastPaymentTimestamp u) b.
Definition with_lastPaymentTimestamp (t : uint256) (u : Subscription.t) :=
  Subscription.mk (Subscription.subscriptionId u) (Subscription.ruleId u)
    (Subscription.subscriber u) t (Subscription.isActive u).

(** ** ABI decoding of a [uint32]

    [abi.decode(data, (uint32))] reads the first 32-byte word, big-endian,
    and reverts when fewer than 32 bytes are given or when the word does
    not fit 32 bits. *)
Definition word_of_bytes (bs : bytes) : N :=
  fold_left (λ acc b, acc * 256 + Byte.to_N b) bs 0.

Definition abi_decode_uint32 (data : bytes) : option N :=
  if (length data <? 32)%nat then None
  else let w := word_of_bytes (take 32 data) in
       if w <? 2 ^ 32 then Some w else None.

(** The transaction context. *)
Record Env := mkEnv { msg_sender : address; block_timestamp : uint256 }.

(** ** The FHE library, as the contract uses it

    [fromExternal] imports an external ciphertext for the sender ([None]
    when the input verifier reverts); [checkSignatures] is [false] when the
    library reverts on the decryption proof. *)
Class FHE := {
  fromExternal : address → externalEuint32 → bytes → option euint32;
  isInitialized : euint32 → bool;
  toBytes32 : euint32 → bytes32;
  checkSignatures : list bytes32 → bytes → bytes → bool
}.

(** [bytes(x).length] of a Solidity string. *)
Definition bytes_length (x : string) : nat := String.length x.

(** ** The contract *)
Section AutoPaySystem.
Context `{FHE}.

Definition FHE_fromExternal (env : Env) (input : externalEuint32)
    (inputProof : bytes) : Exec euint32 :=
  match fromExternal (msg_sender env) input inputProof with
  | Some h => mret h
  | None => revert FromExternalReverted
  end.

Definition FHE_checkSignatures (cts : list bytes32)
    (cleartexts decryptionProof : bytes) : Exec unit :=
  if checkSignatures cts cleartexts decryptionProof then mret tt
  else revert CheckSignaturesReverted.

Definition abi_decode (data : bytes) : Exec N :=
  match abi_decode_uint32 data with
  | Some v => mret v
  | None => revert AbiDecodeReverted
  end.

Definition createPaymentRule (env : Env) (ruleId : string)
    (encryptedThreshold : externalEuint32) (inputProof : bytes)
    (publicThreshold : uint256) (recipient : address)
    (description : string) : Exec unit :=
  s ← sload;
  require (bytes_length (PaymentRule.ruleId (paymentRules s !!! ruleId)) =? 0)%nat
          "Rule already exists";;
  h ← FHE_fromExternal env encryptedThreshold inputProof;
  require (isInitialized h) "Invalid encrypted input";;
  h' ← FHE_fromExternal env encryptedThreshold inputProof;
  sstore (set_paymentRule ruleId
            (PaymentRule.mk ruleId h' publicThreshold recipient description
               (msg_sender env) (block_timestamp env) true));;
  s ← sload;
  effect (AllowThis (PaymentRule.encryptedThreshold (paymentRules s !!! ruleId)));;
  s ← sload;
  effect (MakePubliclyDecryptable
            (PaymentRule.encryptedThreshold (paymentRules s !!! ruleId)));;
  sstore (push_ruleIds ruleId);;
  emit (PaymentRuleCreated ruleId (msg_sender env)).

Definition createSubscription (env : Env) (subscriptionId ruleId : string)
    (subscriber : address) : Exec unit :=
  s ← sload;
  require (bytes_length
             (Subscription.subscriptionId (subscriptions s !!! subscriptionId))
           =? 0)%nat
          "Subscription already exists";;
  require (0 <? bytes_length (PaymentRule.ruleId (paymentRules s !!! ruleId)))%nat
          "Rule does not exist";;
  require (PaymentRule.isActive (paymentRules s !!! ruleId)) "Rule is not active";;
  sstore (set_subscription subscriptionId
            (Subscription.mk subscriptionId ruleId subscriber 0 true));;
  sstore (push_ruleSubscriptions ruleId subscriptionId);;
  sstore (push_subscriptionIds subscriptionId);;
  emit (SubscriptionCreated subscriptionId ruleId subscriber).

(** [rule] is a storage pointer: its slot is fixed by the rule id read
    when the pointer is taken, and each use reads the storage of the
    moment. *)
Definition executePayment (env : Env) (subscriptionId : string)
    (abiEncodedClearValue decryptionProof : bytes) : Exec unit :=
  s ← sload;
  require (0 <? bytes_length
                  (Subscription.subscriptionId (subscriptions s !!! subscriptionId)))%nat
          "Subscription does not exist";;
  require (Subscription.isActive (subscriptions s !!! subscriptionId))
          "Subscription is not active";;
  let rule := Subscription.ruleId (subscriptions s !!! subscriptionId) in
  require (PaymentRule.isActive (paymentRules s !!! rule)) "Rule is not active";;
  let cts := [toBytes32 (PaymentRule.encryptedThreshold (paymentRules s !!! rule))] in
  FHE_checkSignatures cts abiEncodedClearValue decryptionProof;;
  decodedValue ← abi_decode abiEncodedClearValue;
  require (PaymentRule.publicThreshold (paymentRules s !!! rule) <=? decodedValue)
          "Threshold not met";;
  sstore (λ s, set_subscription subscriptionId
                 (with_lastPaymentTimestamp (block_timestamp env)
                    (subscriptions s !!! subscriptionId)) s);;
  s ← sload;
  emit (PaymentExecuted subscriptionId
          (PaymentRule.ruleId (paymentRules s !!! rule))
          (PaymentRule.recipient (paymentRules s !!! rule))).

Definition getPaymentRule (ruleId : string)
  : Exec (string * uint256 * address * string * address * uint256 * bool) :=
  s ← sload;
  require (0 <? bytes_length (PaymentRule.ruleId (paymentRules s !!! ruleId)))%nat
          "Rule does not exist";;
  let rule := paymentRules s !!! ruleId in
  mret (PaymentRule.ruleId rule, PaymentRule.publicThreshold rule,
        PaymentRule.recipient rule, PaymentRule.description rule,
        PaymentRule.creator rule, PaymentRule.timestamp rule,
        PaymentRule.isActive rule).

Definition getSubscription (subscriptionId : string)
  : Exec (string * string * address * uint256 * bool) :=
  s ← sload;
  require (0 <? bytes_length
                  (Subscription.subscriptionId (subscriptions s !!! subscriptionId)))%nat
          "Subscription does not exist";;
  let sub := subscriptions s !!! subscriptionId in
  mret (Subscription.subscriptionId sub, Subscription.ruleId sub,
        Subscription.subscriber sub, Subscription.lastPaymentTimestamp sub,
        Subscription.isActive sub).

Definition getRuleSubscriptions (ruleId : string) : Exec (list string) :=
  s ← sload;
  require (0 <? bytes_length (PaymentRule.ruleId (paymentRules s !!! ruleId)))%nat
          "Rule does not exist";;
  mret (ruleSubscriptions s !!! ruleId).

Definition getAllRuleIds : Exec (list string) :=
  s ← sload; mret (ruleIds s).

Definition getAllSubscriptionIds : Exec (list string) :=
  s ← sload; mret (subscriptionIds s).

Definition disableRule (env : Env) (ruleId : string) : Exec unit :=
  s ← sload;
  require (0 <? bytes_length (PaymentRule.ruleId (paymentRules s !!! ruleId)))%nat
          "Rule does not exist";;
  require (msg_sender env =? PaymentRule.creator (paymentRules s !!! ruleId))
          "Only creator can disable rule";;
  sstore (λ s, set_paymentRule ruleId
                 (with_rule_isActive false (paymentRules s !!! ruleId)) s).

Definition disableSubscription (env : Env) (subscriptionId : string) : Exec unit :=
  s ← sload;
  require (0 <? bytes_length
                  (Subscription.subscriptionId (subscriptions s !!! subscriptionId)))%nat
          "Subscription does not exist";;
  require (msg_sender env
           =? Subscription.subscriber (subscriptions s !!! subscriptionId))
          "Only subscriber can disable subscription";;
  sstore (λ s, set_subscription subscriptionId
                 (with_sub_isActive false (subscriptions s !!! subscriptionId)) s).

Definition isAvailable : bool := true.

(** ** Transactions

    The mutating entry points, as a ledger delivers them. *)
Inductive Call :=
| CreatePaymentRule (ruleId : string) (encryptedThreshold : externalEuint32)
    (inputProof : bytes) (publicThreshold : uint256) (recipient : address)
    (description : string)
| CreateSubscription (subscriptionId ruleId : string) (subscriber : address)
| ExecutePayment (subscriptionId : string)
    (abiEncodedClearValue decryptionProof : bytes)
| DisableRule (ruleId : string)
| DisableSubscription (subscriptionId : string).

Definition dispatch (env : Env) (c : Call) : Exec unit :=
  match c with
  | CreatePaymentRule r e p t a d => createPaymentRule env r e p t a d
  | CreateSubscription i r a => createSubscription env i r a
  | ExecutePayment i v p => executePayment env i v p
  | DisableRule r => disableRule env r
  | DisableSubscription i => disableSubscription env i
  end.

(** One transaction, then a whole history of them. *)
Definition transact (s : Storage) (tx : Env * Call) : Storage :=
  commit (dispatch tx.1 tx.2) s.

Definition replay (txs : list (Env * Call)) (s : Storage) : Storage :=
  fold_left transact txs s.

(** The id a transaction appends to [ruleIds]: that of a
    [createPaymentRule] call that succeeds. *)
Definition created_rule (s : Storage) (tx : Env * Call) : list string :=
  match tx.2 with
  | CreatePaymentRule r _ _ _ _ _ =>
      match receipt (dispatch tx.1 tx.2) s with
      | Success _ _ => [r]
      | Failed _ => []
      end
  | _ => []
  end.

Fixpoint created_rules (txs : list (Env * Call)) (s : Storage) : list string :=
  match txs with
  | [] => []
  | tx :: txs => created_rule s tx ++ created_rules txs (transact s tx)
  end.

(** ** Existence, as the contract tests it *)
Definition ruleExists (s : Storage) (ruleId : string) : bool :=
  (0 <? bytes_length (PaymentRule.ruleId (paymentRules s !!! ruleId)))%nat.
Definition subscriptionExists (s : Storage) (subscriptionId : string) : bool :=
  (0 <? bytes_length
          (Subscription.subscriptionId (subscriptions s !!! subscriptionId)))%nat.

End AutoPaySystem.

(** ** Predicates used in the statements *)

(** The subscription an [executePayment] call reads, and the rule its
    storage pointer designates. *)
Definition subscriptionOf (s : Storage) (subscriptionId : string) : Subscription.t :=
  subscriptions s !!! subscriptionId.
Definition ruleOf (s : Storage) (subscriptionId : string) : PaymentRule.t :=
  paymentRules s !!! Subscription.ruleId (subscriptions s !!! subscriptionId).

(** What a transaction may do to a stored rule: nothing, or clear
    [isActive]. *)
Definition rule_kept (old new : PaymentRule.t) : Prop :=
  new = old ∨ new = with_rule_isActive false old.

(** Every listed id but the empty one names a rule the contract holds
    to exist. *)
Definition listed_exist (s : Storage) : Prop :=
  ∀ k, k ∈ ruleIds s → k ≠ "" → ruleExists s k = true.

(** In a record the contract holds to exist the stored id is the key, and
    the rule of a subscription that exists, exists. *)
Definition ids_consistent (s : Storage) : Prop :=
  (∀ k, ruleExists s k = true → PaymentRule.ruleId (paymentRules s !!! k) = k)
  ∧ (∀ i, subscriptionExists s i = true →
          ruleExists s (Subscription.ruleId (subscriptions s !!! i)) = true).

(** ** Committed steps

    The storage a call commits when it returns, one rule per entry
    point; [dispatch_returned] below shows that these are the returning
    runs of [dispatch] and no others. *)
Section Steps.
Context `{FHE}.

Inductive committed (env : Env) (s : Storage) : Call → Storage → Prop :=
| committed_createPaymentRule r e p t a d h :
    ruleExists s r = false →
    fromExternal (msg_sender env) e p = Some h →
    isInitialized h = true →
    committed env s (CreatePaymentRule r e p t a d)
      (push_ruleIds r
         (set_paymentRule r
            (PaymentRule.mk r h t a d (msg_sender env) (block_timestamp env) true)
            s))
| committed_createSubscription i r a :
    subscriptionExists s i = false →
    ruleExists s r = true →
    PaymentRule.isActive (paymentRules s !!! r) = true →
    committed env s (CreateSubscription i r a)
      (push_subscriptionIds i
         (push_ruleSubscriptions r i
            (set_subscription i (Subscription.mk i r a 0 true) s)))
| committed_executePayment i v p n :
    subscriptionExists s i = true →
    Subscription.isActive (subscriptionOf s i) = true →
    PaymentRule.isActive (ruleOf s i) = true →
    checkSignatures [toBytes32 (PaymentRule.encryptedThreshold (ruleOf s i))] v p
      = true →
    abi_decode_uint32 v = Some n →
    PaymentRule.publicThreshold (ruleOf s i) ≤ n →
    committed env s (ExecutePayment i v p)
      (set_subscription i
         (with_lastPaymentTimestamp (block_timestamp env) (subscriptionOf s i)) s)
| committed_disableRule r :
    ruleExists s r = true →
    msg_sender env = PaymentRule.creator (paymentRules s !!! r) →
    committed env s (DisableRule r)
      (set_paymentRule r (with_rule_isActive false (paymentRules s !!! r)) s)
| committed_disableSubscription i :
    subscriptionExists s i = true →
    msg_sender env = Subscription.subscriber (subscriptions s !!! i) →
    committed env s (DisableSubscription i)
      (set_subscription i (with_sub_isActive false (subscriptions s !!! i)) s).

End Steps.

(** What a transaction may do to a stored subscription: record a payment
    time or clear [isActive]; the ids and the subscriber stay. *)
Definition subscription_kept (old new : Subscription.t) : Prop :=
  Subscription.subscriptionId new = Subscription.subscriptionId old
  ∧ Subscription.ruleId new = Subscription.ruleId old
  ∧ Subscription.subscriber new = Subscription.subscriber old
  ∧ (Subscription.isActive old = false → Subscription.isActive new = false).

(** The entries of an enumeration other than the empty string. *)
Definition named (l : list string) : list string := filter (λ k, k ≠ "") l.

(** Two storages with the same lists and index, and the same ids in every
    record. *)
Definition same_shape (s s' : Storage) : Prop :=
  (∀ k, PaymentRule.ruleId (paymentRules s' !!! k)
        = PaymentRule.ruleId (paymentRules s !!! k))
  ∧ (∀ i, Subscription.subscriptionId (subscriptions s' !!! i)
          = Subscription.subscriptionId (subscriptions s !!! i))
  ∧ (∀ i, Subscription.ruleId (subscriptions s' !!! i)
          = Subscription.ruleId (subscriptions s !!! i))
  ∧ ruleSubscriptions s' = ruleSubscriptions s
  ∧ ruleIds s' = ruleIds s
  ∧ subscriptionIds s' = subscriptionIds s.

(** How the records, the enumeration lists and the index of a storage
    fit together. *)
Record coherent (s : Storage) : Prop := mkCoherent {
  rule_key : ∀ k, ruleExists s k = true →
    PaymentRule.ruleId (paymentRules s !!! k) = k;
  subscription_key : ∀ i, subscriptionExists s i = true →
    Subscription.subscriptionId (subscriptions s !!! i) = i;
  subscription_rule : ∀ i, subscriptionExists s i = true →
    ruleExists s (Subscription.ruleId (subscriptions s !!! i)) = true;
  rule_listed : ∀ k, ruleExists s k = true → k ∈ ruleIds s;
  subscription_listed : ∀ i, subscriptionExists s i = true →
    i ∈ subscriptionIds s;
  subscription_indexed : ∀ i, subscriptionExists s i = true →
    i ∈ ruleSubscriptions s !!! Subscription.ruleId (subscriptions s !!! i);
  listed_rule : ∀ k, k ∈ ruleIds s → k ≠ "" → ruleExists s k = true;
  listed_subscription : ∀ i, i ∈ subscriptionIds s → i ≠ "" →
    subscriptionExists s i = true;
  indexed_subscription : ∀ r i, i ∈ ruleSubscriptions s !!! r → i ≠ "" →
    subscriptionExists s i = true
    ∧ Subscription.ruleId (subscriptions s !!! i) = r;
  indexed_rule : ∀ r i, i ∈ ruleSubscriptions s !!! r → ruleExists s r = true;
  distinct_rules : NoDup (named (ruleIds s));
  distinct_subscriptions : NoDup (named (subscriptionIds s));
  distinct_indexed : ∀ r, NoDup (named (ruleSubscriptions s !!! r))
}.

(** ** A deterministic stand-in for the FHE library

    Used to run the contract on concrete inputs: an import succeeds when
    the input proof is not empty and yields the external word as handle; a
    decryption proof is valid when it is the clear-value encoding
    reversed. *)
Module TestFHE.
#[export] Instance lib : FHE := {|
  fromExternal := λ _ input inputProof,
    match inputProof with [] => None | _ => Some input end;
  isInitialized := λ h, negb (h =? 0);
  toBytes32 := λ h, h;
  checkSignatures := λ _ cleartexts proof,
    bool_decide (Byte.to_N <$> proof = Byte.to_N <$> rev cleartexts)
|}.

(** The ABI encoding of a small number: 31 zero bytes and the number. *)
Definition enc (b : Byte.byte) : bytes := replicate 31 Byte.x00 ++ [b].

Definition alice : address := 10.
Definition bob : address := 11.
Definition carol : address := 12.
Definition at_ (who : address) (now : uint256) : Env := mkEnv who now.

(** Alice registers rule "r1" with public threshold 100 and Bob as
    recipient; Carol subscribes to it as "s1". *)
Definition history : list (Env * Call) :=
  [(at_ alice 5, CreatePaymentRule "r1" 7 [Byte.x01] 100 bob "rent");
   (at_ carol 6, CreateSubscription "s1" "r1" carol)].
Definition sample : Storage := replay history deployed.

(** Clear values 99 and 100 with their proofs, and a proof for 100 whose
    first byte was altered. *)
Definition v99 : bytes := enc Byte.x63.
Definition v100 : bytes := enc Byte.x64.
Definition proof_of (v : bytes) : bytes := rev v.
Definition tampered (p : bytes) : bytes :=
  match p with [] => [Byte.xff] | _ :: p' => Byte.xff :: p' end.
End TestFHE.

(** * Properties *)

(** ** The functions, as case analyses on their guards *)
Section Equations.
Context `{FHE}.

Lemma eqb_0_ltb (n : nat) : (n =? 0)%nat = negb (0 <? n)%nat.
Proof. by destruct n. Qed.

Ltac run :=
  unfold createPaymentRule, createSubscription, executePayment, disableRule,
    disableSubscription, getPaymentRule, getAllRuleIds, FHE_fromExternal,
    FHE_checkSignatures, abi_decode, ruleExists, subscriptionExists, require,
    emit, effect, sstore, sload, revert, mbind, mret, Exec_bind, Exec_ret;
  cbn beta iota.

Lemma createPaymentRule_eq env r e p t a d s :
  createPaymentRule env r e p t a d s =
  if ruleExists s r
  then Reverted (RequireFailed "Rule already exists") s []
  else match fromExternal (msg_sender env) e p with
       | None => Reverted FromExternalReverted s []
       | Some h =>
           if isInitialized h
           then Returned tt
                  (push_ruleIds r
                     (set_paymentRule r
                        (PaymentRule.mk r h t a d (msg_sender env)
                           (block_timestamp env) true) s))
                  [AllowThis h; MakePubliclyDecryptable h;
                   Emit (PaymentRuleCreated r (msg_sender env))]
           else Reverted (RequireFailed "Invalid encrypted input") s []
       end.
Proof.
  run. rewrite eqb_0_ltb.
  destruct (0 <? _)%nat; [done|].
  destruct (fromExternal _ e p) as [h|]; [|done].
  destruct (isInitialized h); [|done].
  unfold set_paymentRule; cbn. by rewrite lookup_total_insert_eq.
Qed.

Lemma createSubscription_eq env i r a s :
  createSubscription env i r a s =
  if subscriptionExists s i
  then Reverted (RequireFailed "Subscription already exists") s []
  else if negb (ruleExists s r)
  then Reverted (RequireFailed "Rule does not exist") s []
  else if negb (PaymentRule.isActive (paymentRules s !!! r))
  then Reverted (RequireFailed "Rule is not active") s []
  else Returned tt
         (push_subscriptionIds i
            (push_ruleSubscriptions r i
               (set_subscription i (Subscription.mk i r a 0 true) s)))
         [Emit (SubscriptionCreated i r a)].
Proof.
  run. rewrite eqb_0_ltb.
  destruct (0 <? bytes_length (Subscription.subscriptionId _))%nat; [done|].
  destruct (0 <? _)%nat; [|done].
  by destruct (PaymentRule.isActive _).
Qed.

Lemma executePayment_eq env i v p s :
  executePayment env i v p s =
  let sub := subscriptions s !!! i in
  let rule := paymentRules s !!! Subscription.ruleId sub in
  if negb (subscriptionExists s i)
  then Reverted (RequireFailed "Subscription does not exist") s []
  else if negb (Subscription.isActive sub)
  then Reverted (RequireFailed "Subscription is not active") s []
  else if negb (PaymentRule.isActive rule)
  then Reverted (RequireFailed "Rule is not active") s []
  else if negb (checkSignatures
                  [toBytes32 (PaymentRule.encryptedThreshold rule)] v p)
  then Reverted CheckSignaturesReverted s []
  else match abi_decode_uint32 v with
       | None => Reverted AbiDecodeReverted s []
       | Some decodedValue =>
           if PaymentRule.publicThreshold rule <=? decodedValue
           then Returned tt
                  (set_subscription i
                     (with_lastPaymentTimestamp (block_timestamp env) sub) s)
                  [Emit (PaymentExecuted i (PaymentRule.ruleId rule)
                           (PaymentRule.recipient rule))]
           else Reverted (RequireFailed "Threshold not met") s []
       end.
Proof.
  run.
  destruct (0 <? _)%nat; [|done].
  destruct (Subscription.isActive _); [|done].
  destruct (PaymentRule.isActive _); [|done].
  destruct (checkSignatures _ v p); [|done].
  destruct (abi_decode_uint32 v) as [n|]; [|done].
  by destruct (_ <=? n).
Qed.

Lemma disableRule_eq env r s :
  disableRule env r s =
  if negb (ruleExists s r)
  then Reverted (RequireFailed "Rule does not exist") s []
  else if negb (msg_sender env =? PaymentRule.creator (paymentRules s !!! r))
  then Reverted (RequireFailed "Only creator can disable rule") s []
  else Returned tt
         (set_paymentRule r (with_rule_isActive false (paymentRules s !!! r)) s)
         [].
Proof.
  run. destruct (0 <? _)%nat; [|done]. by destruct (_ =? _).
Qed.

Lemma disableSubscription_eq env i s :
  disableSubscription env i s =
  if negb (subscriptionExists s i)
  then Reverted (RequireFailed "Subscription does not exist") s []
  else if negb (msg_sender env
                =? Subscription.subscriber (subscriptions s !!! i))
  then Reverted (RequireFailed "Only subscriber can disable subscription") s []
  else Returned tt
         (set_subscription i (with_sub_isActive false (subscriptions s !!! i)) s)
         [].
Proof.
  run. destruct (0 <? _)%nat; [|done]. by destruct (_ =? _).
Qed.

Lemma getPaymentRule_eq r s :
  getPaymentRule r s =
  let rule := paymentRules s !!! r in
  if ruleExists s r
  then Returned
         (PaymentRule.ruleId rule, PaymentRule.publicThreshold rule,
          PaymentRule.recipient rule, PaymentRule.description rule,
          PaymentRule.creator rule, PaymentRule.timestamp rule,
          PaymentRule.isActive rule) s []
  else Reverted (RequireFailed "Rule does not exist") s [].
Proof. run. by destruct (0 <? _)%nat. Qed.

Lemma getAllRuleIds_eq s : getAllRuleIds s = Returned (ruleIds s) s [].
Proof. done. Qed.

End Equations.

Ltac storage :=
  unfold set_paymentRule, set_subscription, push_ruleIds, push_subscriptionIds,
    push_ruleSubscriptions in *;
  cbn [paymentRules subscriptions ruleSubscriptions ruleIds subscriptionIds] in *.

Ltac guards :=
  repeat match goal with
         | E : ?b = _ |- context [?b] => rewrite E
         end; cbn [negb].

Section PaymentExecution.
Context `{FHE}.
Implicit Types (env : Env) (s : Storage) (i r : string) (v p : bytes).

(** The path of [executePayment] on which every guard holds. *)
Lemma executePayment_accepts env s i v p (decodedValue : N) :
  subscriptionExists s i = true →
  Subscription.isActive (subscriptionOf s i) = true →
  PaymentRule.isActive (ruleOf s i) = true →
  checkSignatures [toBytes32 (PaymentRule.encryptedThreshold (ruleOf s i))] v p
    = true →
  abi_decode_uint32 v = Some decodedValue →
  PaymentRule.publicThreshold (ruleOf s i) ≤ decodedValue →
  executePayment env i v p s
  = Returned tt
      (set_subscription i
         (with_lastPaymentTimestamp (block_timestamp env) (subscriptionOf s i)) s)
      [Emit (PaymentExecuted i (PaymentRule.ruleId (ruleOf s i))
               (PaymentRule.recipient (ruleOf s i)))].
Proof.
  unfold subscriptionOf, ruleOf. intros Hex Hsub Hrule Hsig Hdec Hcmp.
  apply N.leb_le in Hcmp.
  rewrite executePayment_eq; cbv zeta.
  by rewrite Hex, Hsub, Hrule, Hsig, Hdec, Hcmp.
Qed.

(** C1. On an existing, active subscription of an active rule and with a
    proof that verifies, [executePayment] compares the decoded clear
    value with the rule's [publicThreshold]: below it the call fails
    [ThresholdNotMet] having written nothing, so [lastPaymentTimestamp]
    is unchanged; at or above it the call succeeds, sets
    [lastPaymentTimestamp] to the transaction time and emits
    [PaymentExecuted] with the subscription id and the rule's id and
    recipient. *)
Theorem executePayment_threshold env s i v p (decodedValue : N) :
  subscriptionExists s i = true →
  Subscription.isActive (subscriptionOf s i) = true →
  PaymentRule.isActive (ruleOf s i) = true →
  checkSignatures [toBytes32 (PaymentRule.encryptedThreshold (ruleOf s i))] v p
    = true →
  abi_decode_uint32 v = Some decodedValue →
  (decodedValue < PaymentRule.publicThreshold (ruleOf s i) →
     failsWith (executePayment env i v p) s ThresholdNotMet
     ∧ executePayment env i v p s
       = Reverted (RequireFailed "Threshold not met") s []
     ∧ Subscription.lastPaymentTimestamp
         (subscriptionOf (commit (executePayment env i v p) s) i)
       = Subscription.lastPaymentTimestamp (subscriptionOf s i))
  ∧ (PaymentRule.publicThreshold (ruleOf s i) ≤ decodedValue →
     receipt (executePayment env i v p) s
       = Success tt [Emit (PaymentExecuted i
                             (PaymentRule.ruleId (ruleOf s i))
                             (PaymentRule.recipient (ruleOf s i)))]
     ∧ commit (executePayment env i v p) s
       = set_subscription i
           (with_lastPaymentTimestamp (block_timestamp env) (subscriptionOf s i)) s
     ∧ Subscription.lastPaymentTimestamp
         (subscriptionOf (commit (executePayment env i v p) s) i)
       = block_timestamp env).
Proof.
  intros Hex Hsub Hrule Hsig Hdec. split; intros Hcmp.
  - unfold subscriptionOf, ruleOf in *. apply N.leb_gt in Hcmp.
    assert (Heq := executePayment_eq env i v p s). cbv zeta in Heq.
    rewrite Hex, Hsub, Hrule, Hsig, Hdec, Hcmp in Heq. cbn [negb] in Heq.
    unfold failsWith, receipt, commit. rewrite Heq.
    split; [by eexists|done].
  - unfold receipt, commit.
    rewrite (executePayment_accepts env s i v p decodedValue) by done.
    split_and!; [done..|].
    unfold subscriptionOf. storage. by rewrite lookup_total_insert_eq.
Qed.

(** C2. [executePayment] fails [NotFound] when the subscription does not
    exist, [InactiveEntity] when the subscription is not active and
    [InactiveEntity] when its rule is not active; after a [disableRule]
    that succeeds on the rule of an existing active subscription, the
    subscription is still active and [executePayment] on it fails
    [InactiveEntity]. *)
Theorem executePayment_liveness env s i v p :
  (subscriptionExists s i = false →
     failsWith (executePayment env i v p) s NotFound)
  ∧ (subscriptionExists s i = true →
     Subscription.isActive (subscriptionOf s i) = false →
     failsWith (executePayment env i v p) s InactiveEntity)
  ∧ (subscriptionExists s i = true →
     PaymentRule.isActive (ruleOf s i) = false →
     failsWith (executePayment env i v p) s InactiveEntity)
  ∧ (∀ env0 r,
       subscriptionExists s i = true →
       Subscription.isActive (subscriptionOf s i) = true →
       Subscription.ruleId (subscriptionOf s i) = r →
       receipt (disableRule env0 r) s = Success tt [] →
       Subscription.isActive (subscriptionOf (commit (disableRule env0 r) s) i)
         = true
       ∧ receipt (executePayment env i v p) (commit (disableRule env0 r) s)
         = Failed (RequireFailed "Rule is not active")
       ∧ failsWith (executePayment env i v p) (commit (disableRule env0 r) s)
           InactiveEntity).
Proof.
  unfold subscriptionOf, ruleOf, failsWith, receipt.
  split_and!.
  - intros Hex. rewrite executePayment_eq; cbv zeta. guards. by eexists.
  - intros Hex Hsub. rewrite executePayment_eq; cbv zeta. guards. by eexists.
  - intros Hex Hrule. rewrite executePayment_eq; cbv zeta. guards.
    destruct (Subscription.isActive _); by eexists.
  - intros env0 r Hex Hsub Hr. unfold commit.
    rewrite disableRule_eq.
    destruct (ruleExists s r); [|done].
    destruct (msg_sender env0 =? _); [|done]. intros _. cbn [negb].
    assert (Hdis : executePayment env i v p
              (set_paymentRule r
                 (with_rule_isActive false (paymentRules s !!! r)) s)
            = Reverted (RequireFailed "Rule is not active")
                (set_paymentRule r
                   (with_rule_isActive false (paymentRules s !!! r)) s) []).
    { rewrite executePayment_eq; cbv zeta.
      unfold subscriptionExists in *. storage.
      rewrite Hex, Hsub, Hr. cbn [negb].
      by rewrite lookup_total_insert_eq. }
    rewrite Hdis. split_and!; [done..|by eexists].
Qed.

(** C9. [executePayment] has no minimum interval: after one execution
    that succeeds, a second one for the same subscription with a proof
    that verifies and a decoded value meeting the threshold succeeds in
    any transaction context, whatever its time, and records that time. *)
Theorem executePayment_repeatable env1 env2 s i v1 p1 v2 p2 log1 (decodedValue : N) :
  receipt (executePayment env1 i v1 p1) s = Success tt log1 →
  checkSignatures
    [toBytes32 (PaymentRule.encryptedThreshold
                  (ruleOf (commit (executePayment env1 i v1 p1) s) i))] v2 p2
    = true →
  abi_decode_uint32 v2 = Some decodedValue →
  PaymentRule.publicThreshold (ruleOf (commit (executePayment env1 i v1 p1) s) i)
    ≤ decodedValue →
  receipt (executePayment env2 i v2 p2) (commit (executePayment env1 i v1 p1) s)
    = Success tt [Emit (PaymentExecuted i
                          (PaymentRule.ruleId (ruleOf s i))
                          (PaymentRule.recipient (ruleOf s i)))]
  ∧ Subscription.lastPaymentTimestamp
      (subscriptionOf
         (commit (executePayment env2 i v2 p2)
            (commit (executePayment env1 i v1 p1) s)) i)
    = block_timestamp env2.
Proof.
  unfold receipt at 1. unfold commit at 1 2 3 5.
  rewrite (executePayment_eq env1); cbv zeta.
  destruct (subscriptionExists s i) eqn:Hex; [|done].
  destruct (Subscription.isActive (subscriptions s !!! i)) eqn:Hsub; [|done].
  destruct (PaymentRule.isActive _) eqn:Hrule; [|done].
  destruct (checkSignatures _ v1 p1); [|done].
  destruct (abi_decode_uint32 v1) as [d1|]; [|done].
  destruct (_ <=? d1); [|done]. cbn [negb]. intros _.
  set (s1 := set_subscription i _ s).
  assert (Hsub1 : subscriptionOf s1 i
                  = with_lastPaymentTimestamp (block_timestamp env1)
                      (subscriptions s !!! i)).
  { unfold subscriptionOf, s1, set_subscription; cbn.
    by rewrite lookup_total_insert_eq. }
  assert (Hrule1 : ruleOf s1 i = ruleOf s i).
  { unfold ruleOf. fold (subscriptionOf s1 i). by rewrite Hsub1. }
  intros Hsig Hdec Hthr. rewrite Hrule1 in Hsig, Hthr.
  unfold receipt, commit.
  rewrite (executePayment_accepts env2 s1 i v2 p2 decodedValue).
  - rewrite Hrule1. split; [done|].
    unfold subscriptionOf at 1. storage. by rewrite lookup_total_insert_eq.
  - unfold subscriptionExists. fold (subscriptionOf s1 i). by rewrite Hsub1.
  - by rewrite Hsub1.
  - by rewrite Hrule1.
  - by rewrite Hrule1.
  - done.
  - by rewrite Hrule1.
Qed.

End PaymentExecution.

Section Authorization.
Context `{FHE}.
Implicit Types (env : Env) (s : Storage) (i r : string).

(** C5. On an existing rule, [disableRule] from an account that is not
    the stored creator fails [Unauthorized] and writes nothing, so an
    active rule stays active, and from the creator it succeeds and
    leaves [isActive] false; the same holds of [disableSubscription]
    and the stored subscriber. *)
Theorem disable_authorization env s r i :
  (ruleExists s r = true →
     (msg_sender env ≠ PaymentRule.creator (paymentRules s !!! r) →
        failsWith (disableRule env r) s Unauthorized
        ∧ disableRule env r s
          = Reverted (RequireFailed "Only creator can disable rule") s []
        ∧ (PaymentRule.isActive (paymentRules s !!! r) = true →
           PaymentRule.isActive
             (paymentRules (commit (disableRule env r) s) !!! r) = true))
     ∧ (msg_sender env = PaymentRule.creator (paymentRules s !!! r) →
        receipt (disableRule env r) s = Success tt []
        ∧ PaymentRule.isActive
            (paymentRules (commit (disableRule env r) s) !!! r) = false))
  ∧ (subscriptionExists s i = true →
     (msg_sender env ≠ Subscription.subscriber (subscriptions s !!! i) →
        failsWith (disableSubscription env i) s Unauthorized
        ∧ disableSubscription env i s
          = Reverted (RequireFailed "Only subscriber can disable subscription")
              s []
        ∧ (Subscription.isActive (subscriptions s !!! i) = true →
           Subscription.isActive
             (subscriptions (commit (disableSubscription env i) s) !!! i)
           = true))
     ∧ (msg_sender env = Subscription.subscriber (subscriptions s !!! i) →
        receipt (disableSubscription env i) s = Success tt []
        ∧ Subscription.isActive
            (subscriptions (commit (disableSubscription env i) s) !!! i)
          = false)).
Proof.
  unfold failsWith, receipt, commit. split; intros Hex.
  - rewrite disableRule_eq, Hex. cbn [negb]. split; intros Hwho.
    + apply N.eqb_neq in Hwho. rewrite Hwho. cbn [negb].
      split_and!; [by eexists|done..].
    + apply N.eqb_eq in Hwho. rewrite Hwho. cbn [negb]. split; [done|].
      storage. by rewrite lookup_total_insert_eq.
  - rewrite disableSubscription_eq, Hex. cbn [negb]. split; intros Hwho.
    + apply N.eqb_neq in Hwho. rewrite Hwho. cbn [negb].
      split_and!; [by eexists|done..].
    + apply N.eqb_eq in Hwho. rewrite Hwho. cbn [negb]. split; [done|].
      storage. by rewrite lookup_total_insert_eq.
Qed.

(** C10. [createSubscription] never reads the caller: in two transaction
    contexts it has the same outcome, storage and log included; the
    subscriber it stores is the [subscriber] argument, so every account
    can bind every account to an active rule under a free id. *)
Theorem createSubscription_ignores_caller env1 env2 s i r (a : address) :
  createSubscription env1 i r a s = createSubscription env2 i r a s
  ∧ (∀ s' log,
       createSubscription env1 i r a s = Returned tt s' log →
       Subscription.subscriber (subscriptions s' !!! i) = a)
  ∧ (subscriptionExists s i = false →
     ruleExists s r = true →
     PaymentRule.isActive (paymentRules s !!! r) = true →
     receipt (createSubscription env1 i r a) s
       = Success tt [Emit (SubscriptionCreated i r a)]
     ∧ Subscription.subscriber
         (subscriptions (commit (createSubscription env1 i r a) s) !!! i)
       = a).
Proof.
  split_and!.
  - reflexivity.
  - intros s' log. rewrite createSubscription_eq.
    destruct (subscriptionExists s i); [done|].
    destruct (ruleExists s r); [|done].
    destruct (PaymentRule.isActive _); [|done]. cbn [negb].
    intros [= <- _]. storage. by rewrite lookup_total_insert_eq.
  - intros Hfree Hex Hact. unfold receipt, commit.
    rewrite createSubscription_eq, Hfree, Hex, Hact. cbn [negb].
    split; [done|]. storage. by rewrite lookup_total_insert_eq.
Qed.

End Authorization.

Section Atomicity.
Context `{FHE}.
Implicit Types (env : Env) (s : Storage) (i r : string).

(** Every [require] and every library call that can revert comes before
    the first write and the first event of its function. *)
Lemma dispatch_reverted env c s f s' log :
  dispatch env c s = Reverted f s' log → s' = s ∧ log = [].
Proof.
  destruct c as [r e p t a d|i r a|i v p|r|i]; cbn [dispatch].
  - rewrite createPaymentRule_eq.
    destruct (ruleExists s r); [by intros [= _ <- <-]|].
    destruct (fromExternal _ e p) as [h|]; [|by intros [= _ <- <-]].
    destruct (isInitialized h); [done|by intros [= _ <- <-]].
  - rewrite createSubscription_eq.
    destruct (subscriptionExists s i); [by intros [= _ <- <-]|].
    destruct (ruleExists s r); [|by intros [= _ <- <-]].
    destruct (PaymentRule.isActive _); [done|by intros [= _ <- <-]].
  - rewrite executePayment_eq; cbv zeta.
    destruct (subscriptionExists s i); [|by intros [= _ <- <-]].
    destruct (Subscription.isActive _); [|by intros [= _ <- <-]].
    destruct (PaymentRule.isActive _); [|by intros [= _ <- <-]].
    destruct (checkSignatures _ v p); [|by intros [= _ <- <-]].
    destruct (abi_decode_uint32 v) as [n|]; [|by intros [= _ <- <-]].
    destruct (_ <=? n); [done|by intros [= _ <- <-]].
  - rewrite disableRule_eq.
    destruct (ruleExists s r); [|by intros [= _ <- <-]].
    destruct (_ =? _); [done|by intros [= _ <- <-]].
  - rewrite disableSubscription_eq.
    destruct (subscriptionExists s i); [|by intros [= _ <- <-]].
    destruct (_ =? _); [done|by intros [= _ <- <-]].
Qed.

(** C3. A call to [createPaymentRule], [createSubscription],
    [executePayment], [disableRule] or [disableSubscription] that fails
    has written nothing at the point where it fails and has emitted
    nothing, and the storage after the transaction is the storage before
    it; [executePayment] whose proof is rejected fails [InvalidProof]
    in that way. *)
Theorem failing_call_no_mutation env c s :
  (∀ f s' log,
     dispatch env c s = Reverted f s' log →
     s' = s ∧ log = [] ∧ transact s (env, c) = s)
  ∧ (∀ f, receipt (dispatch env c) s = Failed f → transact s (env, c) = s)
  ∧ (∀ i v p,
       c = ExecutePayment i v p →
       subscriptionExists s i = true →
       Subscription.isActive (subscriptionOf s i) = true →
       PaymentRule.isActive (ruleOf s i) = true →
       checkSignatures
         [toBytes32 (PaymentRule.encryptedThreshold (ruleOf s i))] v p = false →
       failsWith (dispatch env c) s InvalidProof
       ∧ dispatch env c s = Reverted CheckSignaturesReverted s []
       ∧ transact s (env, c) = s).
Proof.
  unfold transact, commit, receipt; cbn [fst snd]. split_and!.
  - intros f s' log Hrun.
    destruct (dispatch_reverted _ _ _ _ _ _ Hrun) as [-> ->].
    by rewrite Hrun.
  - intros f. by destruct (dispatch env c s).
  - intros i v p -> Hex Hsub Hrule Hsig. unfold failsWith, receipt.
    unfold subscriptionOf, ruleOf in *. cbn [dispatch].
    rewrite executePayment_eq; cbv zeta. guards.
    split_and!; [by eexists|done..].
Qed.

End Atomicity.

Section Referential.
Context `{FHE}.
Implicit Types (env : Env) (s : Storage) (i r : string).

(** C7, as the code has it.  The id of the subscription is tested first:
    under an id already in use [createSubscription] fails [DuplicateId]
    whatever the rule; under a free id it fails [NotFound] when the rule
    does not exist and [InactiveEntity] when the rule exists and is not
    active.  In each of the three cases nothing is written: no record,
    no entry in an enumeration list, no entry in the index. *)
Theorem createSubscription_referential env s i r (a : address) :
  (subscriptionExists s i = true →
     failsWith (createSubscription env i r a) s DuplicateId
     ∧ createSubscription env i r a s
       = Reverted (RequireFailed "Subscription already exists") s []
     ∧ commit (createSubscription env i r a) s = s)
  ∧ (subscriptionExists s i = false →
     ruleExists s r = false →
     failsWith (createSubscription env i r a) s NotFound
     ∧ createSubscription env i r a s
       = Reverted (RequireFailed "Rule does not exist") s []
     ∧ commit (createSubscription env i r a) s = s
     ∧ subscriptionExists (commit (createSubscription env i r a) s) i = false)
  ∧ (subscriptionExists s i = false →
     ruleExists s r = true →
     PaymentRule.isActive (paymentRules s !!! r) = false →
     failsWith (createSubscription env i r a) s InactiveEntity
     ∧ createSubscription env i r a s
       = Reverted (RequireFailed "Rule is not active") s []
     ∧ commit (createSubscription env i r a) s = s
     ∧ subscriptionExists (commit (createSubscription env i r a) s) i = false).
Proof.
  unfold failsWith, receipt, commit. rewrite createSubscription_eq.
  split_and!.
  - intros ->. split_and!; [by eexists|done..].
  - intros Hfree ->. rewrite Hfree. cbn [negb].
    split_and!; [by eexists|done..].
  - intros Hfree -> ->. rewrite Hfree. cbn [negb].
    split_and!; [by eexists|done..].
Qed.

End Referential.

(** ** Histories *)
Section Histories.
Context `{FHE}.
Implicit Types (env : Env) (s : Storage) (k i r : string) (tx : Env * Call).

Lemma rule_kept_trans (a b c : PaymentRule.t) :
  rule_kept a b → rule_kept b c → rule_kept a c.
Proof. intros [->| ->] [->| ->]; unfold rule_kept; auto. Qed.

Lemma rule_kept_fields (old new : PaymentRule.t) :
  rule_kept old new →
  PaymentRule.ruleId new = PaymentRule.ruleId old
  ∧ PaymentRule.creator new = PaymentRule.creator old
  ∧ (PaymentRule.isActive old = false → PaymentRule.isActive new = false).
Proof. by intros [->| ->]. Qed.

Lemma ruleExists_nonempty s k :
  ruleExists s k = true → PaymentRule.ruleId (paymentRules s !!! k) ≠ "".
Proof.
  unfold ruleExists. by destruct (PaymentRule.ruleId _).
Qed.

(** A rule the contract holds to exist is kept by every transaction. *)
Lemma transact_rule_kept s tx k :
  ruleExists s k = true →
  rule_kept (paymentRules s !!! k) (paymentRules (transact s tx) !!! k).
Proof.
  intros Hk. destruct tx as [env c]. unfold transact, commit; cbn [fst snd].
  destruct c as [r e p t a d|i r a|i v p|r|i]; cbn [dispatch].
  - rewrite createPaymentRule_eq.
    destruct (ruleExists s r) eqn:Hr; [by left|].
    destruct (fromExternal _ e p) as [h|]; [|by left].
    destruct (isInitialized h); [|by left].
    storage. left. rewrite lookup_total_insert_ne; [done|congruence].
  - rewrite createSubscription_eq.
    destruct (subscriptionExists s i); [by left|].
    destruct (ruleExists s r); [|by left].
    destruct (PaymentRule.isActive _); by left.
  - rewrite executePayment_eq; cbv zeta.
    destruct (subscriptionExists s i); [|by left].
    destruct (Subscription.isActive _); [|by left].
    destruct (PaymentRule.isActive _); [|by left].
    destruct (checkSignatures _ v p); [|by left].
    destruct (abi_decode_uint32 v) as [n|]; [|by left].
    destruct (_ <=? n); by left.
  - rewrite disableRule_eq.
    destruct (ruleExists s r); [|by left].
    destruct (_ =? _); [|by left]. cbn [negb]. storage.
    destruct (decide (r = k)) as [->|Hne].
    + right. by rewrite lookup_total_insert_eq.
    + left. by rewrite lookup_total_insert_ne.
  - rewrite disableSubscription_eq.
    destruct (subscriptionExists s i); [|by left].
    destruct (_ =? _); by left.
Qed.

Lemma transact_ruleExists s tx k :
  ruleExists s k = true → ruleExists (transact s tx) k = true.
Proof.
  intros Hk. destruct (transact_rule_kept s tx k Hk) as [Heq|Heq];
    unfold ruleExists in *; by rewrite Heq.
Qed.

(** Over a whole history: a rule that exists keeps its id, its creator
    and every other field but [isActive], which can only go to false. *)
Lemma replay_rule_kept txs s k :
  ruleExists s k = true →
  ruleExists (replay txs s) k = true
  ∧ rule_kept (paymentRules s !!! k) (paymentRules (replay txs s) !!! k).
Proof.
  revert s. induction txs as [|tx txs IH]; intros s Hk; cbn.
  - split; [done|by left].
  - destruct (IH (transact s tx) (transact_ruleExists s tx k Hk)) as [He Hr].
    split; [done|]. eapply rule_kept_trans; [|exact Hr].
    by apply transact_rule_kept.
Qed.

(** No transaction removes a key from a mapping. *)
Lemma transact_keeps_keys s tx :
  (∀ k, is_Some (paymentRules s !! k) →
        is_Some (paymentRules (transact s tx) !! k))
  ∧ (∀ i, is_Some (subscriptions s !! i) →
          is_Some (subscriptions (transact s tx) !! i)).
Proof.
  destruct tx as [env c]. unfold transact, commit; cbn [fst snd].
  destruct (dispatch env c s) as [[] s' log|] eqn:Hrun; [|done].
  destruct c as [r e p t a d|i r a|i v p|r|i]; cbn [dispatch] in Hrun.
  - rewrite createPaymentRule_eq in Hrun.
    destruct (ruleExists s r); [done|].
    destruct (fromExternal _ e p) as [h|]; [|done].
    destruct (isInitialized h); [|done].
    injection Hrun as <- _. storage.
    split; [|done]. intros k Hk. rewrite lookup_insert. by case_decide.
  - rewrite createSubscription_eq in Hrun.
    destruct (subscriptionExists s i); [done|].
    destruct (ruleExists s r); [|done].
    destruct (PaymentRule.isActive _); [|done].
    injection Hrun as <- _. storage.
    split; [done|]. intros k Hk. rewrite lookup_insert. by case_decide.
  - rewrite executePayment_eq in Hrun; cbv zeta in Hrun.
    destruct (subscriptionExists s i); [|done].
    destruct (Subscription.isActive _); [|done].
    destruct (PaymentRule.isActive _); [|done].
    destruct (checkSignatures _ v p); [|done].
    destruct (abi_decode_uint32 v) as [n|]; [|done].
    destruct (_ <=? n); [|done].
    injection Hrun as <- _. storage.
    split; [done|]. intros k Hk. rewrite lookup_insert. by case_decide.
  - rewrite disableRule_eq in Hrun.
    destruct (ruleExists s r); [|done].
    destruct (_ =? _); [|done].
    injection Hrun as <- _. storage.
    split; [|done]. intros k Hk. rewrite lookup_insert. by case_decide.
  - rewrite disableSubscription_eq in Hrun.
    destruct (subscriptionExists s i); [|done].
    destruct (_ =? _); [|done].
    injection Hrun as <- _. storage.
    split; [done|]. intros k Hk. rewrite lookup_insert. by case_decide.
Qed.

Lemma ids_consistent_transact s tx :
  ids_consistent s → ids_consistent (transact s tx).
Proof.
  intros [Hrules Hsubs]. destruct tx as [env c].
  unfold transact, commit; cbn [fst snd].
  destruct (dispatch env c s) as [[] s' log|] eqn:Hrun; [|done].
  destruct c as [r e p t a d|i0 r a|i0 v p|r|i0]; cbn [dispatch] in Hrun.
  - rewrite createPaymentRule_eq in Hrun.
    destruct (ruleExists s r) eqn:Hr; [done|].
    destruct (fromExternal _ e p) as [h|]; [|done].
    destruct (isInitialized h); [|done]. injection Hrun as <- _.
    unfold ids_consistent, ruleExists, subscriptionExists in *. storage.
    split.
    + intros k. destruct (decide (r = k)) as [->|Hne].
      * by rewrite lookup_total_insert_eq.
      * rewrite lookup_total_insert_ne by done. apply Hrules.
    + intros i Hi. specialize (Hsubs i Hi).
      rewrite lookup_total_insert_ne; [done|]. intros ->. congruence.
  - rewrite createSubscription_eq in Hrun.
    destruct (subscriptionExists s i0); [done|].
    destruct (ruleExists s r) eqn:Hr; [|done].
    destruct (PaymentRule.isActive _); [|done]. injection Hrun as <- _.
    unfold ids_consistent, ruleExists, subscriptionExists in *. storage.
    split; [done|].
    intros i. destruct (decide (i0 = i)) as [->|Hne].
    + by rewrite lookup_total_insert_eq.
    + rewrite lookup_total_insert_ne by done. apply Hsubs.
  - rewrite executePayment_eq in Hrun; cbv zeta in Hrun.
    destruct (subscriptionExists s i0) eqn:Hi0; [|done].
    destruct (Subscription.isActive _); [|done].
    destruct (PaymentRule.isActive _); [|done].
    destruct (checkSignatures _ v p); [|done].
    destruct (abi_decode_uint32 v) as [n|]; [|done].
    destruct (_ <=? n); [|done]. injection Hrun as <- _.
    unfold ids_consistent, ruleExists, subscriptionExists in *. storage.
    split; [done|].
    intros i. destruct (decide (i0 = i)) as [->|Hne].
    + rewrite lookup_total_insert_eq. intros _. by apply Hsubs.
    + rewrite lookup_total_insert_ne by done. apply Hsubs.
  - rewrite disableRule_eq in Hrun.
    destruct (ruleExists s r) eqn:Hr; [|done].
    destruct (_ =? _); [|done]. injection Hrun as <- _.
    unfold ids_consistent, ruleExists, subscriptionExists in *. storage.
    split.
    + intros k. destruct (decide (r = k)) as [->|Hne].
      * rewrite lookup_total_insert_eq. intros _. by apply Hrules.
      * rewrite lookup_total_insert_ne by done. apply Hrules.
    + intros i Hi. specialize (Hsubs i Hi).
      destruct (decide (r = Subscription.ruleId (subscriptions s !!! i)))
        as [->|Hne].
      * by rewrite lookup_total_insert_eq.
      * by rewrite lookup_total_insert_ne.
  - rewrite disableSubscription_eq in Hrun.
    destruct (subscriptionExists s i0) eqn:Hi0; [|done].
    destruct (_ =? _); [|done]. injection Hrun as <- _.
    unfold ids_consistent, ruleExists, subscriptionExists in *. storage.
    split; [done|].
    intros i. destruct (decide (i0 = i)) as [->|Hne].
    + rewrite lookup_total_insert_eq. intros _. by apply Hsubs.
    + rewrite lookup_total_insert_ne by done. apply Hsubs.
Qed.

Lemma ids_consistent_replay txs : ids_consistent (replay txs deployed).
Proof.
  assert (Hgen : ∀ s, ids_consistent s → ids_consistent (replay txs s)).
  { induction txs as [|tx txs IH]; intros s Hs; cbn; [done|].
    by apply IH, ids_consistent_transact. }
  apply Hgen. split; intros k Hk; by vm_compute in Hk.
Qed.

(** After any history, the rule id that [executePayment] emits, read from
    the rule, is the one stored in the subscription. *)
Lemma emitted_ruleId txs i :
  subscriptionExists (replay txs deployed) i = true →
  PaymentRule.ruleId (ruleOf (replay txs deployed) i)
  = Subscription.ruleId (subscriptionOf (replay txs deployed) i).
Proof.
  intros Hi. destruct (ids_consistent_replay txs) as [Hrules Hsubs].
  unfold ruleOf, subscriptionOf. by apply Hrules, Hsubs.
Qed.

(** A rule created under an id that is not the empty string is kept by
    every later history. *)
Lemma created_rule_kept env s r e p t a d log txs :
  r ≠ "" →
  receipt (createPaymentRule env r e p t a d) s = Success tt log →
  rule_kept
    (paymentRules (commit (createPaymentRule env r e p t a d) s) !!! r)
    (paymentRules (replay txs (commit (createPaymentRule env r e p t a d) s)) !!! r).
Proof.
  intros Hne Hok. apply replay_rule_kept.
  revert Hok. unfold receipt, commit. rewrite createPaymentRule_eq.
  destruct (ruleExists s r); [done|].
  destruct (fromExternal _ e p) as [h|]; [|done].
  destruct (isInitialized h); [|done]. intros _.
  unfold ruleExists. storage. rewrite lookup_total_insert_eq. cbn.
  by destruct r.
Qed.

End Histories.

Section Enumeration.
Context `{FHE}.
Implicit Types (env : Env) (s : Storage) (k i r : string) (tx : Env * Call).

Lemma ruleIds_transact s tx :
  ruleIds (transact s tx) = ruleIds s ++ created_rule s tx.
Proof.
  destruct tx as [env c].
  unfold transact, created_rule, commit, receipt; cbn [fst snd].
  destruct c as [r e p t a d|i r a|i v p|r|i]; cbn [dispatch].
  - rewrite createPaymentRule_eq.
    destruct (ruleExists s r); [by rewrite app_nil_r|].
    destruct (fromExternal _ e p) as [h|]; [|by rewrite app_nil_r].
    destruct (isInitialized h); [done|by rewrite app_nil_r].
  - rewrite app_nil_r. by destruct (createSubscription env i r a s) eqn:Hrun;
      [rewrite createSubscription_eq in Hrun;
       repeat case_match; simplify_eq|].
  - rewrite app_nil_r. by destruct (executePayment env i v p s) eqn:Hrun;
      [rewrite executePayment_eq in Hrun; cbv zeta in Hrun;
       repeat case_match; simplify_eq|].
  - rewrite app_nil_r. by destruct (disableRule env r s) eqn:Hrun;
      [rewrite disableRule_eq in Hrun; repeat case_match; simplify_eq|].
  - rewrite app_nil_r. by destruct (disableSubscription env i s) eqn:Hrun;
      [rewrite disableSubscription_eq in Hrun;
       repeat case_match; simplify_eq|].
Qed.

(** [getAllRuleIds] lists the ids of the [createPaymentRule] calls that
    succeeded, in the order of the calls. *)
Lemma ruleIds_replay txs s :
  ruleIds (replay txs s) = ruleIds s ++ created_rules txs s.
Proof.
  revert s. induction txs as [|tx txs IH]; intros s; cbn.
  - by rewrite app_nil_r.
  - fold (replay txs (transact s tx)).
    by rewrite IH, ruleIds_transact, <- app_assoc.
Qed.

Lemma listed_exist_transact s tx :
  listed_exist s → listed_exist (transact s tx).
Proof.
  intros Hinv k. rewrite ruleIds_transact. intros [Hin|Hin]%elem_of_app Hne.
  - by apply transact_ruleExists, Hinv.
  - destruct tx as [env c]. unfold created_rule, receipt in Hin.
    unfold transact, commit. cbn [fst snd] in *.
    destruct c as [r e p t a d| | | |]; try by apply elem_of_nil in Hin.
    cbn [dispatch] in *. rewrite createPaymentRule_eq in *.
    destruct (ruleExists s r); [by apply elem_of_nil in Hin|].
    destruct (fromExternal _ e p) as [h|]; [|by apply elem_of_nil in Hin].
    destruct (isInitialized h); [|by apply elem_of_nil in Hin].
    apply list_elem_of_singleton in Hin as ->.
    unfold ruleExists. storage. rewrite lookup_total_insert_eq. cbn.
    by destruct r.
Qed.

Lemma listed_exist_replay txs : listed_exist (replay txs deployed).
Proof.
  assert (Hgen : ∀ s, listed_exist s → listed_exist (replay txs s)).
  { induction txs as [|tx txs IH]; intros s Hs; cbn; [done|].
    by apply IH, listed_exist_transact. }
  apply Hgen. intros k Hin. by apply elem_of_nil in Hin.
Qed.

(** After any history, every listed id other than the empty string is
    retrievable through [getPaymentRule]. *)
Lemma listed_retrievable txs k :
  k ∈ ruleIds (replay txs deployed) → k ≠ "" →
  ∃ view, receipt (getPaymentRule k) (replay txs deployed) = Success view [].
Proof.
  intros Hin Hne. unfold receipt. rewrite getPaymentRule_eq; cbv zeta.
  rewrite (listed_exist_replay txs k Hin Hne). by eexists.
Qed.

(** A second [createPaymentRule] under an id that is not the empty
    string fails [DuplicateId] and leaves the first rule as it was. *)
Lemma createPaymentRule_duplicate env1 env2 s r e1 p1 t1 a1 d1 e2 p2 t2 a2 d2 log :
  r ≠ "" →
  receipt (createPaymentRule env1 r e1 p1 t1 a1 d1) s = Success tt log →
  createPaymentRule env2 r e2 p2 t2 a2 d2
    (commit (createPaymentRule env1 r e1 p1 t1 a1 d1) s)
  = Reverted (RequireFailed "Rule already exists")
      (commit (createPaymentRule env1 r e1 p1 t1 a1 d1) s) [].
Proof.
  intros Hne. unfold receipt, commit. rewrite (createPaymentRule_eq env1).
  destruct (ruleExists s r); [done|].
  destruct (fromExternal _ e1 p1) as [h|]; [|done].
  destruct (isInitialized h); [|done]. intros _.
  rewrite createPaymentRule_eq.
  unfold ruleExists at 1. storage. rewrite lookup_total_insert_eq. cbn.
  by destruct r.
Qed.

(** The same for [createSubscription]. *)
Lemma createSubscription_duplicate env1 env2 s i r1 a1 r2 a2 log :
  i ≠ "" →
  receipt (createSubscription env1 i r1 a1) s = Success tt log →
  createSubscription env2 i r2 a2 (commit (createSubscription env1 i r1 a1) s)
  = Reverted (RequireFailed "Subscription already exists")
      (commit (createSubscription env1 i r1 a1) s) [].
Proof.
  intros Hne. unfold receipt, commit. rewrite (createSubscription_eq env1).
  destruct (subscriptionExists s i); [done|].
  destruct (ruleExists s r1); [|done].
  destruct (PaymentRule.isActive _); [|done]. cbn [negb]. intros _.
  rewrite createSubscription_eq.
  unfold subscriptionExists at 1. storage. rewrite lookup_total_insert_eq. cbn.
  by destruct i.
Qed.

End Enumeration.

(** ** The empty string as an id

    The contract takes a rule, or a subscription, to exist when the id
    stored in its record is not empty, and no function rejects an empty
    id: a record created under the empty string is stored and listed, and
    is not held to exist. *)
Section EmptyId.
Context `{FHE}.
Implicit Types (env : Env) (s : Storage).

Lemma createPaymentRule_empty env s e p t a d h :
  ruleExists s "" = false →
  fromExternal (msg_sender env) e p = Some h →
  isInitialized h = true →
  createPaymentRule env "" e p t a d s
  = Returned tt
      (push_ruleIds ""
         (set_paymentRule ""
            (PaymentRule.mk "" h t a d (msg_sender env) (block_timestamp env)
               true) s))
      [AllowThis h; MakePubliclyDecryptable h;
       Emit (PaymentRuleCreated "" (msg_sender env))]
  ∧ ruleExists (commit (createPaymentRule env "" e p t a d) s) "" = false.
Proof.
  intros Hs Hh Hi. unfold commit.
  rewrite createPaymentRule_eq, Hs, Hh, Hi. split; [done|].
  unfold ruleExists. storage. by rewrite lookup_total_insert_eq.
Qed.

Lemma createSubscription_empty env s r (b : address) :
  subscriptionExists s "" = false →
  ruleExists s r = true →
  PaymentRule.isActive (paymentRules s !!! r) = true →
  createSubscription env "" r b s
  = Returned tt
      (push_subscriptionIds ""
         (push_ruleSubscriptions r ""
            (set_subscription "" (Subscription.mk "" r b 0 true) s)))
      [Emit (SubscriptionCreated "" r b)]
  ∧ subscriptionExists (commit (createSubscription env "" r b) s) "" = false
  ∧ paymentRules (commit (createSubscription env "" r b) s) = paymentRules s.
Proof.
  intros Hs Hr Hact. unfold commit.
  rewrite createSubscription_eq, Hs, Hr, Hact. cbn [negb].
  split_and!; [done| |done].
  unfold subscriptionExists. storage. by rewrite lookup_total_insert_eq.
Qed.

(** C4, at the empty id.  From the deployed contract two
    [createPaymentRule] calls under the empty string both succeed, and
    the second replaces the rule the first stored; two
    [createSubscription] calls under the empty string on an active rule
    both succeed, and the second replaces the subscription. *)
Theorem empty_id_created_twice env1 env2 e1 p1 t1 a1 d1 h1 e2 p2 t2 a2 d2 h2 :
  fromExternal (msg_sender env1) e1 p1 = Some h1 →
  isInitialized h1 = true →
  fromExternal (msg_sender env2) e2 p2 = Some h2 →
  isInitialized h2 = true →
  (receipt (createPaymentRule env1 "" e1 p1 t1 a1 d1) deployed
     = Success tt [AllowThis h1; MakePubliclyDecryptable h1;
                   Emit (PaymentRuleCreated "" (msg_sender env1))]
   ∧ receipt (createPaymentRule env2 "" e2 p2 t2 a2 d2)
       (commit (createPaymentRule env1 "" e1 p1 t1 a1 d1) deployed)
     = Success tt [AllowThis h2; MakePubliclyDecryptable h2;
                   Emit (PaymentRuleCreated "" (msg_sender env2))]
   ∧ paymentRules
       (commit (createPaymentRule env2 "" e2 p2 t2 a2 d2)
          (commit (createPaymentRule env1 "" e1 p1 t1 a1 d1) deployed)) !!! ""
     = PaymentRule.mk "" h2 t2 a2 d2 (msg_sender env2) (block_timestamp env2)
         true)
  ∧ (∀ s r (b1 b2 : address),
       subscriptionExists s "" = false →
       ruleExists s r = true →
       PaymentRule.isActive (paymentRules s !!! r) = true →
       receipt (createSubscription env1 "" r b1) s
         = Success tt [Emit (SubscriptionCreated "" r b1)]
       ∧ receipt (createSubscription env2 "" r b2)
           (commit (createSubscription env1 "" r b1) s)
         = Success tt [Emit (SubscriptionCreated "" r b2)]
       ∧ subscriptions
           (commit (createSubscription env2 "" r b2)
              (commit (createSubscription env1 "" r b1) s)) !!! ""
         = Subscription.mk "" r b2 0 true).
Proof.
  intros Hh1 Hi1 Hh2 Hi2. split.
  - destruct (createPaymentRule_empty env1 deployed e1 p1 t1 a1 d1 h1)
      as [Hrun1 Hex1]; [done..|].
    destruct (createPaymentRule_empty env2
                (commit (createPaymentRule env1 "" e1 p1 t1 a1 d1) deployed)
                e2 p2 t2 a2 d2 h2) as [Hrun2 _]; [done..|].
    unfold receipt, commit in *. rewrite Hrun1 in *. rewrite Hrun2.
    split_and!; [done..|]. storage. by rewrite lookup_total_insert_eq.
  - intros s r b1 b2 Hfree Hr Hact.
    destruct (createSubscription_empty env1 s r b1) as (Hrun1 & Hex1 & Hr1);
      [done..|].
    destruct (createSubscription_empty env2
                (commit (createSubscription env1 "" r b1) s) r b2)
      as (Hrun2 & _);
      [done|unfold ruleExists in *; by rewrite Hr1|by rewrite Hr1|].
    unfold receipt, commit in *. rewrite Hrun1 in *. rewrite Hrun2.
    split_and!; [done..|]. storage. by rewrite lookup_total_insert_eq.
Qed.

(** C6, at the empty id.  In the history made of two successful
    [createPaymentRule] calls under the empty string, the rule stored
    by the first call has the first sender as creator, and after the
    second call the rule under the same id has the second sender as
    creator: the id is used again and the creator changes. *)
Theorem empty_id_rule_replaced env1 env2 e1 p1 t1 a1 d1 h1 e2 p2 t2 a2 d2 h2 :
  fromExternal (msg_sender env1) e1 p1 = Some h1 →
  isInitialized h1 = true →
  fromExternal (msg_sender env2) e2 p2 = Some h2 →
  isInitialized h2 = true →
  paymentRules
    (replay [(env1, CreatePaymentRule "" e1 p1 t1 a1 d1)] deployed) !!! ""
  = PaymentRule.mk "" h1 t1 a1 d1 (msg_sender env1) (block_timestamp env1) true
  ∧ paymentRules
      (replay [(env1, CreatePaymentRule "" e1 p1 t1 a1 d1);
               (env2, CreatePaymentRule "" e2 p2 t2 a2 d2)] deployed) !!! ""
    = PaymentRule.mk "" h2 t2 a2 d2 (msg_sender env2) (block_timestamp env2)
        true
  ∧ ruleIds
      (replay [(env1, CreatePaymentRule "" e1 p1 t1 a1 d1);
               (env2, CreatePaymentRule "" e2 p2 t2 a2 d2)] deployed)
    = [""; ""].
Proof.
  intros Hh1 Hi1 Hh2 Hi2. cbn [replay fold_left].
  unfold transact; cbn [fst snd dispatch].
  destruct (createPaymentRule_empty env1 deployed e1 p1 t1 a1 d1 h1)
    as [Hrun1 Hex1]; [done..|].
  destruct (createPaymentRule_empty env2
              (commit (createPaymentRule env1 "" e1 p1 t1 a1 d1) deployed)
              e2 p2 t2 a2 d2 h2) as [Hrun2 _]; [done..|].
  unfold commit in *. rewrite Hrun1 in *. rewrite Hrun2. storage.
  by rewrite !lookup_total_insert_eq.
Qed.

(** C8, at the empty id.  After one successful [createPaymentRule]
    under the empty string, [getAllRuleIds] returns that id and
    [getPaymentRule] on it fails with "Rule does not exist". *)
Theorem empty_id_listed_not_retrievable env e p t a d h :
  fromExternal (msg_sender env) e p = Some h →
  isInitialized h = true →
  receipt (createPaymentRule env "" e p t a d) deployed
    = Success tt [AllowThis h; MakePubliclyDecryptable h;
                  Emit (PaymentRuleCreated "" (msg_sender env))]
  ∧ receipt getAllRuleIds (replay [(env, CreatePaymentRule "" e p t a d)] deployed)
    = Success [""] []
  ∧ receipt (getPaymentRule "")
      (replay [(env, CreatePaymentRule "" e p t a d)] deployed)
    = Failed (RequireFailed "Rule does not exist").
Proof.
  intros Hh Hi. cbn [replay fold_left].
  unfold transact; cbn [fst snd dispatch].
  destruct (createPaymentRule_empty env deployed e p t a d h)
    as [Hrun Hex]; [done..|].
  unfold receipt at 1 3. rewrite getPaymentRule_eq; cbv zeta. rewrite Hex.
  unfold receipt, commit. rewrite Hrun. by rewrite getAllRuleIds_eq.
Qed.

End EmptyId.

(** ** Transactions as committed steps *)
Section StepLemmas.
Context `{FHE}.
Implicit Types (env : Env) (s : Storage) (k i r : string) (tx : Env * Call).

Lemma committed_returns env s c s' :
  committed env s c s' → ∃ log, dispatch env c s = Returned tt s' log.
Proof.
  destruct 1 as [r e p t a d h Hr Hh Hi|i r a Hi Hr Ha|i v p n Hi Hs Hr Hsig Hd Hn
                 |r Hr Hc|i Hi Hc]; cbn [dispatch].
  - rewrite createPaymentRule_eq, Hr, Hh, Hi. by eexists.
  - rewrite createSubscription_eq, Hi, Hr, Ha. by eexists.
  - eexists. by eapply executePayment_accepts.
  - apply N.eqb_eq in Hc. rewrite disableRule_eq, Hr, Hc. by eexists.
  - apply N.eqb_eq in Hc. rewrite disableSubscription_eq, Hi, Hc. by eexists.
Qed.

Lemma returns_committed env s c s' log :
  dispatch env c s = Returned tt s' log → committed env s c s'.
Proof.
  destruct c as [r e p t a d|i r a|i v p|r|i]; cbn [dispatch].
  - rewrite createPaymentRule_eq.
    destruct (ruleExists s r) eqn:Hr; [done|].
    destruct (fromExternal _ e p) as [h|] eqn:Hh; [|done].
    destruct (isInitialized h) eqn:Hi; [|done].
    intros [= <- _]. by econstructor.
  - rewrite createSubscription_eq.
    destruct (subscriptionExists s i) eqn:Hi; [done|].
    destruct (ruleExists s r) eqn:Hr; [|done].
    destruct (PaymentRule.isActive _) eqn:Ha; [|done].
    intros [= <- _]. by constructor.
  - rewrite executePayment_eq; cbv zeta.
    destruct (subscriptionExists s i) eqn:Hi; [|done].
    destruct (Subscription.isActive _) eqn:Hs; [|done].
    destruct (PaymentRule.isActive _) eqn:Hr; [|done].
    destruct (checkSignatures _ v p) eqn:Hsig; [|done].
    destruct (abi_decode_uint32 v) as [n|] eqn:Hd; [|done].
    destruct (_ <=? n) eqn:Hn; [|done].
    intros [= <- _]. apply N.leb_le in Hn. by econstructor.
  - rewrite disableRule_eq.
    destruct (ruleExists s r) eqn:Hr; [|done].
    destruct (_ =? _) eqn:Hc; [|done].
    intros [= <- _]. apply N.eqb_eq in Hc. by constructor.
  - rewrite disableSubscription_eq.
    destruct (subscriptionExists s i) eqn:Hi; [|done].
    destruct (_ =? _) eqn:Hc; [|done].
    intros [= <- _]. apply N.eqb_eq in Hc. by constructor.
Qed.

(** A transaction leaves the storage as it was or commits a step. *)
Lemma transact_cases s env c :
  transact s (env, c) = s ∨ committed env s c (transact s (env, c)).
Proof.
  unfold transact, commit; cbn [fst snd].
  destruct (dispatch env c s) as [[] s' log|] eqn:Hrun; [|by left].
  right. by eapply returns_committed.
Qed.

Lemma committed_transact env s c s' :
  committed env s c s' → transact s (env, c) = s'.
Proof.
  intros [log Hrun]%committed_returns.
  unfold transact, commit; cbn [fst snd]. by rewrite Hrun.
Qed.

End StepLemmas.

(** ** Coherence of the storage *)
Section Coherence.
Context `{FHE}.
Implicit Types (env : Env) (s : Storage) (k i r : string) (tx : Env * Call).

Lemma elem_of_named (l : list string) k : k ∈ named l ↔ k ≠ "" ∧ k ∈ l.
Proof. unfold named. by rewrite list_elem_of_filter. Qed.

Lemma named_snoc (l : list string) k :
  named (l ++ [k]) = named l ++ (if decide (k = "") then [] else [k]).
Proof.
  unfold named. rewrite filter_app. f_equal.
  destruct (decide (k = "")) as [->|Hk]; [done|].
  by rewrite filter_cons_True.
Qed.

Lemma NoDup_named_snoc (l : list string) k :
  NoDup (named l) → (k ≠ "" → k ∉ l) → NoDup (named (l ++ [k])).
Proof.
  intros Hl Hk. rewrite named_snoc.
  destruct (decide (k = "")) as [->|Hne]; [by rewrite app_nil_r|].
  apply NoDup_app. split_and!; [done| |apply NoDup_singleton].
  intros x [_ Hx]%elem_of_named ->%list_elem_of_singleton. by apply Hk.
Qed.

Lemma nonempty_length (x : string) : (0 <? bytes_length x)%nat = true ↔ x ≠ "".
Proof. by destruct x. Qed.

Lemma coherent_deployed : coherent deployed.
Proof.
  constructor; cbn [deployed ruleIds subscriptionIds ruleSubscriptions].
  all: unfold ruleExists, subscriptionExists; cbn [deployed paymentRules subscriptions].
  all: try setoid_rewrite lookup_total_empty.
  all: try (intros ? [=]; fail).
  all: try (intros ? []%elem_of_nil; fail).
  all: try (intros ? ? []%elem_of_nil; fail).
  all: try apply NoDup_nil_2.
  intros _. apply NoDup_nil_2.
Qed.

Lemma coherent_same_shape s s' : same_shape s s' → coherent s → coherent s'.
Proof.
  intros (Hr & Hi & Hsr & Hidx & Hrl & Hsl) [].
  constructor; unfold ruleExists, subscriptionExists in *;
    rewrite ?Hidx, ?Hrl, ?Hsl;
    repeat setoid_rewrite Hr; repeat setoid_rewrite Hi;
    repeat setoid_rewrite Hsr; done.
Qed.

Lemma coherent_createPaymentRule s r (new : PaymentRule.t) :
  ruleExists s r = false →
  PaymentRule.ruleId new = r →
  coherent s →
  coherent (push_ruleIds r (set_paymentRule r new s)).
Proof.
  intros Hr Hid [].
  assert (Hold : ∀ k, ruleExists s k = true →
                      <[r:=new]> (paymentRules s) !!! k = paymentRules s !!! k).
  { intros k Hk. apply lookup_total_insert_ne. intros ->. congruence. }
  constructor; unfold ruleExists, subscriptionExists in *; storage; try done.
  - intros k. destruct (decide (r = k)) as [->|Hne].
    + by rewrite lookup_total_insert_eq.
    + rewrite lookup_total_insert_ne by done. auto.
  - intros i Hi. rewrite Hold; auto.
  - intros k. destruct (decide (r = k)) as [->|Hne].
    + intros _. apply elem_of_app. right. by apply list_elem_of_singleton.
    + rewrite lookup_total_insert_ne by done. intros Hk.
      apply elem_of_app. left. auto.
  - intros k [Hk| ->%list_elem_of_singleton]%elem_of_app Hne.
    + rewrite Hold; auto.
    + rewrite lookup_total_insert_eq, Hid. by apply nonempty_length.
  - intros r0 i Hi. rewrite Hold; eauto.
  - apply NoDup_named_snoc; [done|]. intros Hne Hin.
    specialize (listed_rule0 r Hin Hne). congruence.
Qed.

Lemma coherent_createSubscription s i r (a : address) :
  subscriptionExists s i = false →
  ruleExists s r = true →
  coherent s →
  coherent (push_subscriptionIds i
              (push_ruleSubscriptions r i
                 (set_subscription i (Subscription.mk i r a 0 true) s))).
Proof.
  intros Hi Hr [].
  assert (Hold : ∀ j, subscriptionExists s j = true →
            <[i:=Subscription.mk i r a 0 true]> (subscriptions s) !!! j
            = subscriptions s !!! j).
  { intros j Hj. apply lookup_total_insert_ne. intros ->. congruence. }
  assert (Hidx : ∀ r0 j, j ∈ ruleSubscriptions s !!! r0 →
            j ∈ <[r:=(ruleSubscriptions s !!! r) ++ [i]]> (ruleSubscriptions s)
                !!! r0).
  { intros r0 j Hj. destruct (decide (r = r0)) as [->|Hne].
    - rewrite lookup_total_insert_eq. apply elem_of_app. by left.
    - by rewrite lookup_total_insert_ne. }
  constructor; unfold ruleExists, subscriptionExists in *; storage; try done.
  - intros j. destruct (decide (i = j)) as [->|Hne].
    + by rewrite lookup_total_insert_eq.
    + rewrite lookup_total_insert_ne by done. auto.
  - intros j. destruct (decide (i = j)) as [->|Hne].
    + by rewrite lookup_total_insert_eq.
    + rewrite lookup_total_insert_ne by done. auto.
  - intros j. destruct (decide (i = j)) as [->|Hne].
    + intros _. apply elem_of_app. right. by apply list_elem_of_singleton.
    + rewrite lookup_total_insert_ne by done. intros Hj.
      apply elem_of_app. left. auto.
  - intros j. destruct (decide (i = j)) as [->|Hne].
    + rewrite !lookup_total_insert_eq. intros _. cbn.
      rewrite ?lookup_total_insert_eq. apply elem_of_app. right.
      by apply list_elem_of_singleton.
    + rewrite !lookup_total_insert_ne by done. intros Hj. auto.
  - intros j [Hj| ->%list_elem_of_singleton]%elem_of_app Hne.
    + rewrite Hold; auto.
    + rewrite lookup_total_insert_eq. by apply nonempty_length.
  - intros r0 j Hj Hne. destruct (decide (i = j)) as [->|Hij].
    + rewrite !lookup_total_insert_eq. cbn. split; [by apply nonempty_length|].
      destruct (decide (r = r0)) as [->|Hrr]; [done|].
      rewrite lookup_total_insert_ne in Hj by done.
      destruct (indexed_subscription0 r0 j Hj Hne). congruence.
    + rewrite !lookup_total_insert_ne by done.
      apply indexed_subscription0; [|done].
      destruct (decide (r = r0)) as [->|Hrr].
      * rewrite lookup_total_insert_eq in Hj.
        apply elem_of_app in Hj as [Hj|Hj%list_elem_of_singleton]; [done|].
        congruence.
      * by rewrite lookup_total_insert_ne in Hj.
  - intros r0 j Hj. destruct (decide (r = r0)) as [->|Hrr]; [done|].
    rewrite lookup_total_insert_ne in Hj by done. eauto.
  - apply NoDup_named_snoc; [done|]. intros Hne Hin.
    specialize (listed_subscription0 i Hin Hne). congruence.
  - intros r0. destruct (decide (r = r0)) as [->|Hrr].
    + rewrite lookup_total_insert_eq. apply NoDup_named_snoc; [done|].
      intros Hne Hin. destruct (indexed_subscription0 r0 i Hin Hne). congruence.
    + by rewrite lookup_total_insert_ne.
Qed.

Lemma coherent_committed env s c s' : committed env s c s' → coherent s → coherent s'.
Proof.
  destruct 1 as [r e p t a d h Hr Hh Hi|i r a Hi Hr Ha|i v p n Hi Hs Hr Hsig Hd Hn
                 |r Hr Hc|i Hi Hc].
  - by apply coherent_createPaymentRule.
  - by apply coherent_createSubscription.
  - apply coherent_same_shape.
    unfold same_shape, subscriptionOf. storage. split_and!; try done.
    all: intros j; destruct (decide (i = j)) as [->|Hne];
      [by rewrite lookup_total_insert_eq|by rewrite lookup_total_insert_ne].
  - apply coherent_same_shape.
    unfold same_shape. storage. split_and!; try done.
    intros k; destruct (decide (r = k)) as [->|Hne];
      [by rewrite lookup_total_insert_eq|by rewrite lookup_total_insert_ne].
  - apply coherent_same_shape.
    unfold same_shape. storage. split_and!; try done.
    all: intros j; destruct (decide (i = j)) as [->|Hne];
      [by rewrite lookup_total_insert_eq|by rewrite lookup_total_insert_ne].
Qed.

Lemma coherent_transact s tx : coherent s → coherent (transact s tx).
Proof.
  destruct tx as [env c]. intros Hs.
  destruct (transact_cases s env c) as [->|Hstep]; [done|].
  by eapply coherent_committed.
Qed.

Lemma coherent_replay txs s : coherent s → coherent (replay txs s).
Proof.
  revert s. induction txs as [|tx txs IH]; intros s Hs; cbn; [done|].
  by apply IH, coherent_transact.
Qed.

End Coherence.

(** ** Subscriptions over histories *)
Section SubscriptionHistories.
Context `{FHE}.
Implicit Types (env : Env) (s : Storage) (k i r : string) (tx : Env * Call).

Lemma subscription_kept_refl (u : Subscription.t) : subscription_kept u u.
Proof. by repeat split. Qed.

Lemma subscription_kept_trans (a b c : Subscription.t) :
  subscription_kept a b → subscription_kept b c → subscription_kept a c.
Proof.
  intros (? & ? & ? & ?) (? & ? & ? & ?). unfold subscription_kept.
  split_and!; try congruence. auto.
Qed.

Lemma committed_subscription_kept env s c s' i :
  committed env s c s' →
  subscriptionExists s i = true →
  subscription_kept (subscriptions s !!! i) (subscriptions s' !!! i).
Proof.
  destruct 1 as [r e p t a d h Hr Hh Hin|j r a Hj Hr Ha|j v p n Hj Hs Hr Hsig Hd Hn
                 |r Hr Hc|j Hj Hc]; intros Hi; storage.
  - apply subscription_kept_refl.
  - rewrite lookup_total_insert_ne; [apply subscription_kept_refl|].
    intros ->. congruence.
  - unfold subscriptionOf. destruct (decide (j = i)) as [->|Hne].
    + rewrite lookup_total_insert_eq. by repeat split.
    + rewrite lookup_total_insert_ne by done. apply subscription_kept_refl.
  - apply subscription_kept_refl.
  - destruct (decide (j = i)) as [->|Hne].
    + rewrite lookup_total_insert_eq. by repeat split.
    + rewrite lookup_total_insert_ne by done. apply subscription_kept_refl.
Qed.

Lemma transact_subscription_kept s tx i :
  subscriptionExists s i = true →
  subscriptionExists (transact s tx) i = true
  ∧ subscription_kept (subscriptions s !!! i) (subscriptions (transact s tx) !!! i).
Proof.
  intros Hi. destruct tx as [env c].
  destruct (transact_cases s env c) as [->|Hstep].
  - split; [done|apply subscription_kept_refl].
  - pose proof (committed_subscription_kept _ _ _ _ i Hstep Hi) as Hkept.
    split; [|done]. destruct Hkept as (Hid & _).
    unfold subscriptionExists in *. by rewrite Hid.
Qed.

Lemma replay_subscription_kept txs s i :
  subscriptionExists s i = true →
  subscriptionExists (replay txs s) i = true
  ∧ subscription_kept (subscriptions s !!! i) (subscriptions (replay txs s) !!! i).
Proof.
  revert s. induction txs as [|tx txs IH]; intros s Hi; cbn.
  - split; [done|apply subscription_kept_refl].
  - destruct (transact_subscription_kept s tx i Hi) as [Hi' Hk].
    destruct (IH _ Hi') as [Hi'' Hk']. split; [done|].
    by eapply subscription_kept_trans.
Qed.

Lemma abi_decode_uint32_bound (data : bytes) (n : N) :
  abi_decode_uint32 data = Some n → n < 2 ^ 32.
Proof.
  unfold abi_decode_uint32. destruct (_ <? _)%nat; [done|].
  cbv zeta. destruct (_ <? 2 ^ 32) eqn:Hlt; [|done].
  intros [= <-]. by apply N.ltb_lt.
Qed.

End SubscriptionHistories.

(** ** Creation, lookup and the guards of each entry point *)
Section EntryPoints.
Context `{FHE}.
Implicit Types (env : Env) (s : Storage) (k i r : string) (tx : Env * Call).

Lemma getSubscription_eq i s :
  getSubscription i s =
  if subscriptionExists s i
  then Returned
         (Subscription.subscriptionId (subscriptions s !!! i),
          Subscription.ruleId (subscriptions s !!! i),
          Subscription.subscriber (subscriptions s !!! i),
          Subscription.lastPaymentTimestamp (subscriptions s !!! i),
          Subscription.isActive (subscriptions s !!! i)) s []
  else Reverted (RequireFailed "Subscription does not exist") s [].
Proof.
  unfold getSubscription, subscriptionExists, require, sload, revert, mbind,
    mret, Exec_bind, Exec_ret.
  by destruct (0 <? _)%nat.
Qed.

Lemma getRuleSubscriptions_eq r s :
  getRuleSubscriptions r s =
  if ruleExists s r
  then Returned (ruleSubscriptions s !!! r) s []
  else Reverted (RequireFailed "Rule does not exist") s [].
Proof.
  unfold getRuleSubscriptions, ruleExists, require, sload, revert, mbind,
    mret, Exec_bind, Exec_ret.
  by destruct (0 <? _)%nat.
Qed.

(** X1. A [createPaymentRule] that succeeds under an id other than the
    empty string is read back by [getPaymentRule] with the arguments of
    the call, the sender as creator, the time of the transaction and
    [isActive] true; the id is appended to what [getAllRuleIds] returns;
    subscriptions and index are untouched. *)
Theorem createPaymentRule_then_get env s r e p t a d log :
  r ≠ "" →
  receipt (createPaymentRule env r e p t a d) s = Success tt log →
  receipt (getPaymentRule r) (commit (createPaymentRule env r e p t a d) s)
    = Success (r, t, a, d, msg_sender env, block_timestamp env, true) []
  ∧ receipt getAllRuleIds (commit (createPaymentRule env r e p t a d) s)
    = Success (ruleIds s ++ [r]) []
  ∧ fromExternal (msg_sender env) e p
    = Some (PaymentRule.encryptedThreshold
              (paymentRules (commit (createPaymentRule env r e p t a d) s) !!! r))
  ∧ subscriptions (commit (createPaymentRule env r e p t a d) s) = subscriptions s
  ∧ ruleSubscriptions (commit (createPaymentRule env r e p t a d) s)
    = ruleSubscriptions s
  ∧ subscriptionIds (commit (createPaymentRule env r e p t a d) s)
    = subscriptionIds s.
Proof.
  intros Hne. unfold receipt at 1. unfold commit.
  rewrite createPaymentRule_eq.
  destruct (ruleExists s r); [done|].
  destruct (fromExternal _ e p) as [h|]; [|done].
  destruct (isInitialized h); [|done]. intros _.
  unfold receipt. rewrite getPaymentRule_eq, getAllRuleIds_eq; cbv zeta.
  unfold ruleExists. storage. rewrite !lookup_total_insert_eq.
  cbn -[Nat.ltb bytes_length].
  apply nonempty_length in Hne. by rewrite Hne.
Qed.

(** X2. A [createSubscription] that succeeds under an id other than the
    empty string is read back by [getSubscription] with the rule and the
    subscriber of the call, payment time 0 and [isActive] true. *)
Theorem createSubscription_then_get env s i r (a : address) log :
  i ≠ "" →
  receipt (createSubscription env i r a) s = Success tt log →
  receipt (getSubscription i) (commit (createSubscription env i r a) s)
    = Success (i, r, a, 0, true) [].
Proof.
  intros Hne. unfold receipt at 1. unfold commit.
  rewrite createSubscription_eq.
  destruct (subscriptionExists s i); [done|].
  destruct (ruleExists s r); [|done].
  destruct (PaymentRule.isActive _); [|done]. cbn [negb]. intros _.
  unfold receipt. rewrite getSubscription_eq.
  unfold subscriptionExists. storage. rewrite !lookup_total_insert_eq.
  cbn -[Nat.ltb bytes_length].
  apply nonempty_length in Hne. by rewrite Hne.
Qed.

(** X3. A [createSubscription] that succeeds appends the id to the list
    [getRuleSubscriptions] returns for its rule and to the list
    [getAllSubscriptionIds] returns; the lists of the other rules, the
    rules and [ruleIds] are untouched, and so is every other
    subscription. *)
Theorem createSubscription_indexes env s i r (a : address) log :
  receipt (createSubscription env i r a) s = Success tt log →
  receipt (getRuleSubscriptions r) (commit (createSubscription env i r a) s)
    = Success ((ruleSubscriptions s !!! r) ++ [i]) []
  ∧ receipt getAllSubscriptionIds (commit (createSubscription env i r a) s)
    = Success (subscriptionIds s ++ [i]) []
  ∧ (∀ r', r' ≠ r →
       ruleSubscriptions (commit (createSubscription env i r a) s) !!! r'
       = ruleSubscriptions s !!! r')
  ∧ (∀ j, j ≠ i →
       subscriptions (commit (createSubscription env i r a) s) !!! j
       = subscriptions s !!! j)
  ∧ paymentRules (commit (createSubscription env i r a) s) = paymentRules s
  ∧ ruleIds (commit (createSubscription env i r a) s) = ruleIds s.
Proof.
  unfold receipt at 1. unfold commit.
  rewrite createSubscription_eq.
  destruct (subscriptionExists s i); [done|].
  destruct (ruleExists s r) eqn:Hr; [|done].
  destruct (PaymentRule.isActive _); [|done]. cbn [negb]. intros _.
  unfold receipt. rewrite getRuleSubscriptions_eq.
  unfold ruleExists in *. storage. rewrite Hr, lookup_total_insert_eq.
  split_and!; try done.
  - intros r' Hne. by rewrite lookup_total_insert_ne.
  - intros j Hne. by rewrite lookup_total_insert_ne.
Qed.

(** X4. [executePayment] succeeds exactly when the subscription exists
    and is active, its rule is active, the proof verifies for the rule's
    handle, and the clear value decodes to a [uint32] that is at least
    the rule's [publicThreshold]. *)
Theorem executePayment_succeeds_iff env s i v p :
  (∃ log, receipt (executePayment env i v p) s = Success tt log)
  ↔ subscriptionExists s i = true
    ∧ Subscription.isActive (subscriptionOf s i) = true
    ∧ PaymentRule.isActive (ruleOf s i) = true
    ∧ checkSignatures
        [toBytes32 (PaymentRule.encryptedThreshold (ruleOf s i))] v p = true
    ∧ ∃ n, abi_decode_uint32 v = Some n
           ∧ PaymentRule.publicThreshold (ruleOf s i) ≤ n.
Proof.
  unfold receipt, subscriptionOf, ruleOf. rewrite executePayment_eq; cbv zeta.
  split.
  - intros [log Hrun].
    destruct (subscriptionExists s i); [|done].
    destruct (Subscription.isActive _); [|done].
    destruct (PaymentRule.isActive _); [|done].
    destruct (checkSignatures _ v p); [|done].
    destruct (abi_decode_uint32 v) as [n|]; [|done].
    destruct (_ <=? n) eqn:Hn; [|done].
    apply N.leb_le in Hn. split_and!; try done. by exists n.
  - intros (-> & -> & -> & -> & n & -> & Hn).
    apply N.leb_le in Hn. rewrite Hn. by eexists.
Qed.

(** X5. [executePayment] does not read the sender: in two transaction
    contexts with the same time it has the same outcome, whoever sends
    the transaction. *)
Theorem executePayment_ignores_sender env1 env2 s i v p :
  block_timestamp env1 = block_timestamp env2 →
  executePayment env1 i v p s = executePayment env2 i v p s.
Proof. intros Htime. rewrite !executePayment_eq; cbv zeta. by rewrite Htime. Qed.

(** X6. An [executePayment] that succeeds writes the payment time of its
    subscription and nothing else: the rules, the lists, the index and
    every other subscription are as before, and so are the ids, the
    subscriber and [isActive] of the subscription itself. *)
Theorem executePayment_frame env s i v p log :
  receipt (executePayment env i v p) s = Success tt log →
  paymentRules (commit (executePayment env i v p) s) = paymentRules s
  ∧ ruleSubscriptions (commit (executePayment env i v p) s) = ruleSubscriptions s
  ∧ ruleIds (commit (executePayment env i v p) s) = ruleIds s
  ∧ subscriptionIds (commit (executePayment env i v p) s) = subscriptionIds s
  ∧ (∀ j, j ≠ i →
       subscriptions (commit (executePayment env i v p) s) !!! j
       = subscriptions s !!! j)
  ∧ subscriptions (commit (executePayment env i v p) s) !!! i
    = with_lastPaymentTimestamp (block_timestamp env) (subscriptions s !!! i).
Proof.
  unfold receipt, commit. rewrite executePayment_eq; cbv zeta.
  destruct (subscriptionExists s i); [|done].
  destruct (Subscription.isActive _); [|done].
  destruct (PaymentRule.isActive _); [|done].
  destruct (checkSignatures _ v p); [|done].
  destruct (abi_decode_uint32 v) as [n|]; [|done].
  destruct (_ <=? n); [|done]. intros _. cbn [negb]. storage.
  split_and!; try done.
  - intros j Hne. by rewrite lookup_total_insert_ne.
  - by rewrite lookup_total_insert_eq.
Qed.

(** X7. Under an id the contract does not hold to exist,
    [createPaymentRule] fails [InvalidCiphertext] with nothing written
    when the import reverts or yields a handle that is not initialized,
    and succeeds otherwise; under an id that exists it fails
    [DuplicateId] whatever the ciphertext. *)
Theorem createPaymentRule_guards env s r e p t a d :
  (ruleExists s r = true →
     createPaymentRule env r e p t a d s
     = Reverted (RequireFailed "Rule already exists") s [])
  ∧ (ruleExists s r = false →
     fromExternal (msg_sender env) e p = None →
     createPaymentRule env r e p t a d s = Reverted FromExternalReverted s []
     ∧ failsWith (createPaymentRule env r e p t a d) s InvalidCiphertext)
  ∧ (∀ h, ruleExists s r = false →
     fromExternal (msg_sender env) e p = Some h →
     isInitialized h = false →
     createPaymentRule env r e p t a d s
     = Reverted (RequireFailed "Invalid encrypted input") s []
     ∧ failsWith (createPaymentRule env r e p t a d) s InvalidCiphertext)
  ∧ ((∃ log, receipt (createPaymentRule env r e p t a d) s = Success tt log)
     ↔ ruleExists s r = false
       ∧ ∃ h, fromExternal (msg_sender env) e p = Some h
              ∧ isInitialized h = true).
Proof.
  unfold failsWith, receipt. rewrite createPaymentRule_eq. split_and!.
  - by intros ->.
  - intros -> ->. split; [done|by eexists].
  - intros h -> -> ->. split; [done|by eexists].
  - split.
    + intros [log Hrun]. destruct (ruleExists s r); [done|].
      destruct (fromExternal _ e p) as [h|]; [|done].
      destruct (isInitialized h) eqn:Hi; [|done]. split; [done|by exists h].
    + intros (-> & h & -> & ->). by eexists.
Qed.

(** X8. [disableRule] and [disableSubscription] on an id the contract
    does not hold to exist fail [NotFound] for every sender, the zero
    address included, and write nothing. *)
Theorem disable_missing env s r i :
  (ruleExists s r = false →
     disableRule env r s = Reverted (RequireFailed "Rule does not exist") s []
     ∧ failsWith (disableRule env r) s NotFound)
  ∧ (subscriptionExists s i = false →
     disableSubscription env i s
     = Reverted (RequireFailed "Subscription does not exist") s []
     ∧ failsWith (disableSubscription env i) s NotFound).
Proof.
  unfold failsWith, receipt.
  rewrite disableRule_eq, disableSubscription_eq.
  split; intros ->; (split; [done|by eexists]).
Qed.

(** X9. Disabling is idempotent: after a [disableRule] that succeeds,
    a second one from the same sender succeeds, emits nothing and leaves
    the storage as the first one left it; likewise for
    [disableSubscription]. *)
Theorem disable_idempotent env env' s r i :
  msg_sender env' = msg_sender env →
  (∀ log, receipt (disableRule env r) s = Success tt log →
     receipt (disableRule env' r) (commit (disableRule env r) s) = Success tt []
     ∧ commit (disableRule env' r) (commit (disableRule env r) s)
       = commit (disableRule env r) s)
  ∧ (∀ log, receipt (disableSubscription env i) s = Success tt log →
     receipt (disableSubscription env' i) (commit (disableSubscription env i) s)
       = Success tt []
     ∧ commit (disableSubscription env' i) (commit (disableSubscription env i) s)
       = commit (disableSubscription env i) s).
Proof.
  intros Hsame. split; intros log Hok.
  - assert (Hfirst : commit (disableRule env r) s
                     = set_paymentRule r
                         (with_rule_isActive false (paymentRules s !!! r)) s
                     ∧ ruleExists s r = true
                     ∧ (msg_sender env =? PaymentRule.creator (paymentRules s !!! r))
                       = true).
    { revert Hok. unfold receipt, commit. rewrite disableRule_eq.
      destruct (ruleExists s r); [|done]. by destruct (_ =? _). }
    destruct Hfirst as (-> & Hr & Hc).
    unfold receipt, commit. rewrite disableRule_eq.
    unfold ruleExists in *. storage. rewrite lookup_total_insert_eq.
    cbn -[Nat.ltb bytes_length N.eqb]. rewrite Hr, Hsame, Hc. cbn [negb].
    split; [done|]. storage. by rewrite insert_insert_eq.
  - assert (Hfirst : commit (disableSubscription env i) s
                     = set_subscription i
                         (with_sub_isActive false (subscriptions s !!! i)) s
                     ∧ subscriptionExists s i = true
                     ∧ (msg_sender env
                        =? Subscription.subscriber (subscriptions s !!! i)) = true).
    { revert Hok. unfold receipt, commit. rewrite disableSubscription_eq.
      destruct (subscriptionExists s i); [|done]. by destruct (_ =? _). }
    destruct Hfirst as (-> & Hi & Hc).
    unfold receipt, commit. rewrite disableSubscription_eq.
    unfold subscriptionExists in *. storage. rewrite lookup_total_insert_eq.
    cbn -[Nat.ltb bytes_length N.eqb]. rewrite Hi, Hsame, Hc. cbn [negb].
    split; [done|]. storage. by rewrite insert_insert_eq.
Qed.

(** X23. A [disableRule] that succeeds changes [isActive] of that rule
    and nothing else: [getPaymentRule] returns the fields it returned
    before with [isActive] false, and the other rules, the
    subscriptions, the lists and the index are as before; likewise for
    [disableSubscription] and [getSubscription]. *)
Theorem disable_then_get env s r i :
  (∀ log, receipt (disableRule env r) s = Success tt log →
     receipt (getPaymentRule r) (commit (disableRule env r) s)
     = Success (PaymentRule.ruleId (paymentRules s !!! r),
                PaymentRule.publicThreshold (paymentRules s !!! r),
                PaymentRule.recipient (paymentRules s !!! r),
                PaymentRule.description (paymentRules s !!! r),
                PaymentRule.creator (paymentRules s !!! r),
                PaymentRule.timestamp (paymentRules s !!! r), false) []
     ∧ (∀ k, k ≠ r →
          paymentRules (commit (disableRule env r) s) !!! k = paymentRules s !!! k)
     ∧ subscriptions (commit (disableRule env r) s) = subscriptions s
     ∧ ruleSubscriptions (commit (disableRule env r) s) = ruleSubscriptions s
     ∧ ruleIds (commit (disableRule env r) s) = ruleIds s
     ∧ subscriptionIds (commit (disableRule env r) s) = subscriptionIds s)
  ∧ (∀ log, receipt (disableSubscription env i) s = Success tt log →
     receipt (getSubscription i) (commit (disableSubscription env i) s)
     = Success (Subscription.subscriptionId (subscriptions s !!! i),
                Subscription.ruleId (subscriptions s !!! i),
                Subscription.subscriber (subscriptions s !!! i),
                Subscription.lastPaymentTimestamp (subscriptions s !!! i),
                false) []
     ∧ (∀ j, j ≠ i →
          subscriptions (commit (disableSubscription env i) s) !!! j
          = subscriptions s !!! j)
     ∧ paymentRules (commit (disableSubscription env i) s) = paymentRules s
     ∧ ruleSubscriptions (commit (disableSubscription env i) s)
       = ruleSubscriptions s
     ∧ ruleIds (commit (disableSubscription env i) s) = ruleIds s
     ∧ subscriptionIds (commit (disableSubscription env i) s) = subscriptionIds s).
Proof.
  split; intros log; unfold receipt at 1; unfold commit.
  - rewrite disableRule_eq.
    destruct (ruleExists s r) eqn:Hr; [|done].
    destruct (_ =? _); [|done]. cbn [negb]. intros _.
    unfold receipt. rewrite getPaymentRule_eq; cbv zeta.
    unfold ruleExists in *. storage. rewrite !lookup_total_insert_eq.
    cbn -[Nat.ltb bytes_length]. rewrite Hr. split_and!; try done.
    intros k Hne. by rewrite lookup_total_insert_ne.
  - rewrite disableSubscription_eq.
    destruct (subscriptionExists s i) eqn:Hi; [|done].
    destruct (_ =? _); [|done]. cbn [negb]. intros _.
    unfold receipt. rewrite getSubscription_eq.
    unfold subscriptionExists in *. storage. rewrite !lookup_total_insert_eq.
    cbn -[Nat.ltb bytes_length]. rewrite Hi. split_and!; try done.
    intros j Hne. by rewrite lookup_total_insert_ne.
Qed.

End EntryPoints.

(** ** What no history undoes *)
Section Permanence.
Context `{FHE}.
Implicit Types (env : Env) (s : Storage) (k i r : string) (tx : Env * Call).

(** X10. A rule the contract holds to exist keeps, through every history
    of transactions, its id, handle, public threshold, recipient,
    description, creator and creation time; its [isActive] can go from
    true to false and never back. *)
Theorem rule_fields_fixed txs s k :
  ruleExists s k = true →
  ruleExists (replay txs s) k = true
  ∧ PaymentRule.ruleId (paymentRules (replay txs s) !!! k)
    = PaymentRule.ruleId (paymentRules s !!! k)
  ∧ PaymentRule.encryptedThreshold (paymentRules (replay txs s) !!! k)
    = PaymentRule.encryptedThreshold (paymentRules s !!! k)
  ∧ PaymentRule.publicThreshold (paymentRules (replay txs s) !!! k)
    = PaymentRule.publicThreshold (paymentRules s !!! k)
  ∧ PaymentRule.recipient (paymentRules (replay txs s) !!! k)
    = PaymentRule.recipient (paymentRules s !!! k)
  ∧ PaymentRule.description (paymentRules (replay txs s) !!! k)
    = PaymentRule.description (paymentRules s !!! k)
  ∧ PaymentRule.creator (paymentRules (replay txs s) !!! k)
    = PaymentRule.creator (paymentRules s !!! k)
  ∧ PaymentRule.timestamp (paymentRules (replay txs s) !!! k)
    = PaymentRule.timestamp (paymentRules s !!! k)
  ∧ (PaymentRule.isActive (paymentRules s !!! k) = false →
     PaymentRule.isActive (paymentRules (replay txs s) !!! k) = false).
Proof.
  intros Hk. destruct (replay_rule_kept txs s k Hk) as [Hex [->| ->]]; done.
Qed.

(** X11. A subscription the contract holds to exist keeps, through every
    history, its id, its rule id and its subscriber, and once inactive it
    stays inactive. *)
Theorem subscription_fields_fixed txs s i :
  subscriptionExists s i = true →
  subscriptionExists (replay txs s) i = true
  ∧ Subscription.subscriptionId (subscriptions (replay txs s) !!! i)
    = Subscription.subscriptionId (subscriptions s !!! i)
  ∧ Subscription.ruleId (subscriptions (replay txs s) !!! i)
    = Subscription.ruleId (subscriptions s !!! i)
  ∧ Subscription.subscriber (subscriptions (replay txs s) !!! i)
    = Subscription.subscriber (subscriptions s !!! i)
  ∧ (Subscription.isActive (subscriptions s !!! i) = false →
     Subscription.isActive (subscriptions (replay txs s) !!! i) = false).
Proof. intros Hi. by destruct (replay_subscription_kept txs s i Hi). Qed.

(** X12. After a [disableRule] that succeeds, whatever transactions
    follow, the rule is inactive: [executePayment] fails for every
    subscription of that rule and [createSubscription] on that rule
    under a free id fails [InactiveEntity]. *)
Theorem disabled_rule_blocks_forever env s r log txs :
  receipt (disableRule env r) s = Success tt log →
  PaymentRule.isActive
    (paymentRules (replay txs (commit (disableRule env r) s)) !!! r) = false
  ∧ (∀ env' i v p,
       Subscription.ruleId
         (subscriptionOf (replay txs (commit (disableRule env r) s)) i) = r →
       ∃ f, receipt (executePayment env' i v p)
              (replay txs (commit (disableRule env r) s)) = Failed f
            ∧ (taxonomy f = Some NotFound ∨ taxonomy f = Some InactiveEntity))
  ∧ (∀ env' j (a : address),
       subscriptionExists (replay txs (commit (disableRule env r) s)) j = false →
       receipt (createSubscription env' j r a)
         (replay txs (commit (disableRule env r) s))
       = Failed (RequireFailed "Rule is not active")).
Proof.
  intros Hok.
  assert (Hfirst : ruleExists (commit (disableRule env r) s) r = true
                   ∧ PaymentRule.isActive
                       (paymentRules (commit (disableRule env r) s) !!! r) = false).
  { revert Hok. unfold receipt, commit. rewrite disableRule_eq.
    destruct (ruleExists s r) eqn:Hr; [|done].
    destruct (_ =? _); [|done]. intros _. cbn [negb].
    unfold ruleExists in *. storage. by rewrite lookup_total_insert_eq. }
  destruct Hfirst as [Hex Hoff].
  destruct (replay_rule_kept txs _ r Hex) as [Hex' Hkept].
  apply rule_kept_fields in Hkept as (_ & _ & Hstay).
  specialize (Hstay Hoff). split_and!; [done| |].
  - intros env' i v p Hrule. unfold receipt, subscriptionOf in *.
    rewrite executePayment_eq; cbv zeta. rewrite Hrule, Hstay.
    destruct (subscriptionExists _ i); [|eexists; split; [done|by left]].
    destruct (Subscription.isActive _); eexists; (split; [done|by right]).
  - intros env' j a Hfree. unfold receipt.
    by rewrite createSubscription_eq, Hfree, Hex', Hstay.
Qed.

(** X13. After a [disableSubscription] that succeeds, whatever
    transactions follow, [executePayment] on that subscription fails
    with "Subscription is not active". *)
Theorem disabled_subscription_blocks_forever env s i log txs env' v p :
  receipt (disableSubscription env i) s = Success tt log →
  receipt (executePayment env' i v p)
    (replay txs (commit (disableSubscription env i) s))
  = Failed (RequireFailed "Subscription is not active").
Proof.
  intros Hok.
  assert (Hfirst : subscriptionExists (commit (disableSubscription env i) s) i = true
                   ∧ Subscription.isActive
                       (subscriptions (commit (disableSubscription env i) s) !!! i)
                     = false).
  { revert Hok. unfold receipt, commit. rewrite disableSubscription_eq.
    destruct (subscriptionExists s i) eqn:Hi; [|done].
    destruct (_ =? _); [|done]. intros _. cbn [negb].
    unfold subscriptionExists in *. storage. by rewrite lookup_total_insert_eq. }
  destruct Hfirst as [Hex Hoff].
  destruct (replay_subscription_kept txs _ i Hex) as (Hex' & _ & _ & _ & Hstay).
  unfold receipt. rewrite executePayment_eq; cbv zeta.
  by rewrite Hex', (Hstay Hoff).
Qed.

(** X14. The clear value is decoded as a [uint32] and compared with a
    [uint256] threshold: a rule whose [publicThreshold] is 2^32 or more
    can never be paid, in no later state and with no clear value or
    proof. *)
Theorem threshold_beyond_uint32_never_met txs s r env i v p :
  ruleExists s r = true →
  2 ^ 32 ≤ PaymentRule.publicThreshold (paymentRules s !!! r) →
  Subscription.ruleId (subscriptionOf (replay txs s) i) = r →
  ∃ f, receipt (executePayment env i v p) (replay txs s) = Failed f.
Proof.
  intros Hex Hbig Hrule.
  destruct (replay_rule_kept txs s r Hex) as [_ Hkept].
  assert (Hthr : PaymentRule.publicThreshold (paymentRules (replay txs s) !!! r)
                 = PaymentRule.publicThreshold (paymentRules s !!! r))
    by (by destruct Hkept as [->| ->]).
  unfold receipt, subscriptionOf in *. rewrite executePayment_eq; cbv zeta.
  rewrite Hrule, Hthr.
  destruct (subscriptionExists _ i); [|by eexists].
  destruct (Subscription.isActive _); [|by eexists].
  destruct (PaymentRule.isActive _); [|by eexists].
  destruct (checkSignatures _ v p); [|by eexists].
  destruct (abi_decode_uint32 v) as [n|] eqn:Hdec; [|by eexists].
  apply abi_decode_uint32_bound in Hdec.
  destruct (_ <=? n) eqn:Hn; [|by eexists].
  apply N.leb_le in Hn. lia.
Qed.

(** X15. A transaction changes the payment time of an existing
    subscription only if it is an [executePayment] on that subscription,
    and the new time is then the time of the transaction. *)
Theorem lastPaymentTimestamp_written_by_payment s env c i :
  subscriptionExists s i = true →
  Subscription.lastPaymentTimestamp (subscriptions (transact s (env, c)) !!! i)
    ≠ Subscription.lastPaymentTimestamp (subscriptions s !!! i) →
  (∃ v p, c = ExecutePayment i v p)
  ∧ Subscription.lastPaymentTimestamp (subscriptions (transact s (env, c)) !!! i)
    = block_timestamp env.
Proof.
  intros Hi. destruct (transact_cases s env c) as [->|Hstep]; [done|].
  revert Hstep. generalize (transact s (env, c)). intros s' Hstep.
  destruct Hstep as [r e p t a d h Hr Hh Hin|j r a Hj Hr Ha
                     |j v p n Hj Hs Hr Hsig Hd Hn|r Hr Hc|j Hj Hc]; storage.
  - done.
  - rewrite lookup_total_insert_ne; [done|]. intros ->. congruence.
  - unfold subscriptionOf. destruct (decide (j = i)) as [->|Hne].
    + rewrite lookup_total_insert_eq. intros _. split; [by do 2 eexists|done].
    + by rewrite lookup_total_insert_ne.
  - done.
  - destruct (decide (j = i)) as [->|Hne].
    + by rewrite lookup_total_insert_eq.
    + by rewrite lookup_total_insert_ne.
Qed.

(** X16. The lists are append-only: through every history [ruleIds],
    [subscriptionIds] and the list of every rule in the index keep what
    they hold, in the same order, and grow at the end. *)
Theorem enumerations_append_only txs s :
  ruleIds s `prefix_of` ruleIds (replay txs s)
  ∧ subscriptionIds s `prefix_of` subscriptionIds (replay txs s)
  ∧ ∀ r, (ruleSubscriptions s !!! r)
         `prefix_of` (ruleSubscriptions (replay txs s) !!! r).
Proof.
  revert s. induction txs as [|tx txs IH]; intros s; cbn; [done|].
  destruct (IH (transact s tx)) as (Hr & Hs & Hx).
  fold (replay txs (transact s tx)) in *.
  assert (Hstep : ruleIds s `prefix_of` ruleIds (transact s tx)
                  ∧ subscriptionIds s `prefix_of` subscriptionIds (transact s tx)
                  ∧ ∀ r, (ruleSubscriptions s !!! r)
                         `prefix_of` (ruleSubscriptions (transact s tx) !!! r)).
  { destruct tx as [env c].
    destruct (transact_cases s env c) as [->|Hstep]; [done|].
    revert Hstep. generalize (transact s (env, c)). intros s' Hstep.
    destruct Hstep; storage; split_and!; try done; try by apply prefix_app_r.
    intros r0. destruct (decide (r = r0)) as [->|Hne].
    - rewrite lookup_total_insert_eq. by apply prefix_app_r.
    - by rewrite lookup_total_insert_ne. }
  destruct Hstep as (Hr0 & Hs0 & Hx0).
  split_and!; [by trans (ruleIds (transact s tx))
              |by trans (subscriptionIds (transact s tx))|].
  intros r. by trans (ruleSubscriptions (transact s tx) !!! r).
Qed.

(** X22. With every check before it passed and a proof that verifies,
    [executePayment] still reverts, having written nothing, when the
    clear value is shorter than 32 bytes (the empty encoding included) or
    its first 32-byte word does not fit a [uint32]. *)
Theorem executePayment_malformed_clear_value env s i v p :
  subscriptionExists s i = true →
  Subscription.isActive (subscriptionOf s i) = true →
  PaymentRule.isActive (ruleOf s i) = true →
  checkSignatures [toBytes32 (PaymentRule.encryptedThreshold (ruleOf s i))] v p
    = true →
  (length v < 32)%nat ∨ 2 ^ 32 ≤ word_of_bytes (take 32 v) →
  executePayment env i v p s = Reverted AbiDecodeReverted s [].
Proof.
  unfold subscriptionOf, ruleOf. intros Hex Hsub Hrule Hsig Hbad.
  rewrite executePayment_eq; cbv zeta. rewrite Hex, Hsub, Hrule, Hsig.
  cbn [negb]. unfold abi_decode_uint32.
  destruct (length v <? 32)%nat eqn:Hlen; [done|]. cbv zeta.
  destruct Hbad as [Hshort|Hbig].
  - apply Nat.ltb_ge in Hlen. lia.
  - apply N.ltb_ge in Hbig. by rewrite Hbig.
Qed.

End Permanence.

(** ** The storage after any history from deployment *)
Section Reachable.
Context `{FHE}.
Implicit Types (env : Env) (k i r : string).

Lemma reachable_coherent txs : coherent (replay txs deployed).
Proof. apply coherent_replay, coherent_deployed. Qed.

(** X17. After any history, a subscription the contract holds to exist is
    stored under its own id, its rule exists and is stored under the
    rule id of the subscription, and neither id is the empty string. *)
Theorem referential_integrity txs i :
  subscriptionExists (replay txs deployed) i = true →
  Subscription.subscriptionId (subscriptionOf (replay txs deployed) i) = i
  ∧ ruleExists (replay txs deployed)
      (Subscription.ruleId (subscriptionOf (replay txs deployed) i)) = true
  ∧ PaymentRule.ruleId (ruleOf (replay txs deployed) i)
    = Subscription.ruleId (subscriptionOf (replay txs deployed) i)
  ∧ i ≠ ""
  ∧ Subscription.ruleId (subscriptionOf (replay txs deployed) i) ≠ "".
Proof.
  intros Hi. destruct (reachable_coherent txs).
  unfold subscriptionOf, ruleOf.
  pose proof (subscription_key0 i Hi) as Hkey.
  pose proof (subscription_rule0 i Hi) as Hrule.
  pose proof (rule_key0 _ Hrule) as Hrkey.
  split_and!; [done..| |].
  - apply nonempty_length. unfold subscriptionExists in Hi. by rewrite Hkey in Hi.
  - apply nonempty_length. unfold ruleExists in Hrule. by rewrite Hrkey in Hrule.
Qed.

(** X18. After any history, [getAllRuleIds] returns the ids of the
    [createPaymentRule] calls that succeeded, in call order; no id other
    than the empty string occurs twice in it; and the rules that exist,
    which are those [getPaymentRule] returns, are the listed ids other
    than the empty string. *)
Theorem rule_enumeration txs k :
  ruleIds (replay txs deployed) = created_rules txs deployed
  ∧ NoDup (named (ruleIds (replay txs deployed)))
  ∧ (ruleExists (replay txs deployed) k = true
     ↔ k ≠ "" ∧ k ∈ ruleIds (replay txs deployed))
  ∧ ((∃ view, receipt (getPaymentRule k) (replay txs deployed) = Success view [])
     ↔ k ≠ "" ∧ k ∈ ruleIds (replay txs deployed)).
Proof.
  destruct (reachable_coherent txs).
  assert (Hiff : ruleExists (replay txs deployed) k = true
                 ↔ k ≠ "" ∧ k ∈ ruleIds (replay txs deployed)).
  { split.
    - intros Hk. split; [|by auto]. apply nonempty_length.
      pose proof (rule_key0 k Hk) as Hkey. unfold ruleExists in Hk.
      by rewrite Hkey in Hk.
    - intros [Hne Hin]. auto. }
  split_and!; [by rewrite ruleIds_replay|done|done|].
  rewrite <- Hiff. unfold receipt. rewrite getPaymentRule_eq; cbv zeta.
  destruct (ruleExists _ k); split; try done; [by eexists|by intros []].
Qed.

(** X19. After any history, no id other than the empty string occurs
    twice in what [getAllSubscriptionIds] returns, and the subscriptions
    that exist, which are those [getSubscription] returns, are the
    listed ids other than the empty string. *)
Theorem subscription_enumeration txs i :
  NoDup (named (subscriptionIds (replay txs deployed)))
  ∧ (subscriptionExists (replay txs deployed) i = true
     ↔ i ≠ "" ∧ i ∈ subscriptionIds (replay txs deployed))
  ∧ ((∃ view, receipt (getSubscription i) (replay txs deployed) = Success view [])
     ↔ i ≠ "" ∧ i ∈ subscriptionIds (replay txs deployed)).
Proof.
  destruct (reachable_coherent txs).
  assert (Hiff : subscriptionExists (replay txs deployed) i = true
                 ↔ i ≠ "" ∧ i ∈ subscriptionIds (replay txs deployed)).
  { split.
    - intros Hi. split; [|by auto]. apply nonempty_length.
      pose proof (subscription_key0 i Hi) as Hkey. unfold subscriptionExists in Hi.
      by rewrite Hkey in Hi.
    - intros [Hne Hin]. auto. }
  split_and!; [done|done|].
  rewrite <- Hiff. unfold receipt. rewrite getSubscription_eq.
  destruct (subscriptionExists _ i); split; try done; [by eexists|by intros []].
Qed.

(** X20. After any history, the index is exact: an id other than the
    empty string is in the list of a rule if and only if a subscription
    with that id exists and names that rule; no such id occurs twice in
    a list; and a rule with a list that is not empty exists, so that
    [getRuleSubscriptions] returns the list. *)
Theorem index_exact txs r i :
  (i ≠ "" →
     (i ∈ ruleSubscriptions (replay txs deployed) !!! r
      ↔ subscriptionExists (replay txs deployed) i = true
        ∧ Subscription.ruleId (subscriptions (replay txs deployed) !!! i) = r))
  ∧ NoDup (named (ruleSubscriptions (replay txs deployed) !!! r))
  ∧ (ruleSubscriptions (replay txs deployed) !!! r ≠ [] →
     receipt (getRuleSubscriptions r) (replay txs deployed)
     = Success (ruleSubscriptions (replay txs deployed) !!! r) []).
Proof.
  destruct (reachable_coherent txs). split_and!; [|done|].
  - intros Hne. split; [by auto|]. intros [Hi <-]. auto.
  - intros Hlist. unfold receipt. rewrite getRuleSubscriptions_eq.
    destruct (ruleSubscriptions (replay txs deployed) !!! r) as [|j l] eqn:Hl;
      [done|].
    rewrite (indexed_rule0 r j); [done|]. rewrite Hl. by left.
Qed.

(** X21. After any history, the contract holds no rule and no
    subscription to exist under the empty string: every lookup,
    disabling and payment on it fails [NotFound], no subscription can be
    created on the rule, and the index holds nothing for it. *)
Theorem empty_id_never_exists txs env v p i (a : address) :
  receipt (getPaymentRule "") (replay txs deployed)
    = Failed (RequireFailed "Rule does not exist")
  ∧ receipt (getRuleSubscriptions "") (replay txs deployed)
    = Failed (RequireFailed "Rule does not exist")
  ∧ receipt (disableRule env "") (replay txs deployed)
    = Failed (RequireFailed "Rule does not exist")
  ∧ (∃ f, receipt (createSubscription env i "" a) (replay txs deployed) = Failed f)
  ∧ ruleSubscriptions (replay txs deployed) !!! "" = []
  ∧ receipt (getSubscription "") (replay txs deployed)
    = Failed (RequireFailed "Subscription does not exist")
  ∧ receipt (disableSubscription env "") (replay txs deployed)
    = Failed (RequireFailed "Subscription does not exist")
  ∧ receipt (executePayment env "" v p) (replay txs deployed)
    = Failed (RequireFailed "Subscription does not exist").
Proof.
  destruct (reachable_coherent txs).
  assert (Hr : ruleExists (replay txs deployed) "" = false).
  { destruct (ruleExists _ "") eqn:Hr; [|done].
    pose proof (rule_key0 "" Hr) as Hkey. unfold ruleExists in Hr.
    by rewrite Hkey in Hr. }
  assert (Hs : subscriptionExists (replay txs deployed) "" = false).
  { destruct (subscriptionExists _ "") eqn:Hs; [|done].
    pose proof (subscription_key0 "" Hs) as Hkey. unfold subscriptionExists in Hs.
    by rewrite Hkey in Hs. }
  unfold receipt.
  rewrite getPaymentRule_eq, getRuleSubscriptions_eq, disableRule_eq,
    createSubscription_eq, getSubscription_eq, disableSubscription_eq,
    executePayment_eq; cbv zeta.
  rewrite Hr, Hs. cbn [negb]. split_and!; try done.
  - destruct (subscriptionExists _ i); by eexists.
  - destruct (ruleSubscriptions (replay txs deployed) !!! "") as [|j l] eqn:Hl;
      [done|].
    rewrite (indexed_rule0 "" j) in Hr; [done|]. rewrite Hl. by left.
Qed.

End Reachable.

(** ** Concrete runs *)
Section Runs.
Import TestFHE.

Ltac run_vm := vm_compute; first [reflexivity | discriminate | done].

Lemma executePayment_threshold_witness :
  subscriptionExists sample "s1" = true
  ∧ abi_decode_uint32 v99 = Some 99
  ∧ executePayment (at_ bob 9) "s1" v99 (proof_of v99) sample
    = Reverted (RequireFailed "Threshold not met") sample []
  ∧ abi_decode_uint32 v100 = Some 100
  ∧ receipt (executePayment (at_ bob 9) "s1" v100 (proof_of v100)) sample
    = Success tt [Emit (PaymentExecuted "s1" "r1" bob)]
  ∧ Subscription.lastPaymentTimestamp
      (subscriptionOf
         (commit (executePayment (at_ bob 9) "s1" v100 (proof_of v100)) sample)
         "s1") = 9.
Proof.
  destruct (executePayment_threshold (at_ bob 9) sample "s1" v99 (proof_of v99) 99)
    as [Hbelow _]; [run_vm..|].
  destruct (executePayment_threshold (at_ bob 9) sample "s1" v100
              (proof_of v100) 100) as [_ Hmet]; [run_vm..|].
  destruct Hbelow as (_ & Hrev & _); [run_vm|].
  destruct Hmet as (Hok & _ & Htime); [run_vm|].
  split_and!; [run_vm|run_vm|exact Hrev|run_vm|exact Hok|exact Htime].
Defined.

Lemma executePayment_liveness_witness :
  failsWith (executePayment (at_ bob 9) "s9" v100 (proof_of v100)) sample NotFound
  ∧ receipt (disableRule (at_ alice 7) "r1") sample = Success tt []
  ∧ Subscription.isActive
      (subscriptionOf (commit (disableRule (at_ alice 7) "r1") sample) "s1") = true
  ∧ receipt (executePayment (at_ bob 9) "s1" v100 (proof_of v100))
      (commit (disableRule (at_ alice 7) "r1") sample)
    = Failed (RequireFailed "Rule is not active").
Proof.
  destruct (executePayment_liveness (at_ bob 9) sample "s9" v100 (proof_of v100))
    as (Habsent & _).
  destruct (executePayment_liveness (at_ bob 9) sample "s1" v100 (proof_of v100))
    as (_ & _ & _ & Hgate).
  destruct (Hgate (at_ alice 7) "r1") as (Hactive & Hfail & _); [run_vm..|].
  split_and!; [apply Habsent; run_vm|run_vm|exact Hactive|exact Hfail].
Defined.

Lemma executePayment_repeatable_witness :
  receipt (executePayment (at_ bob 9) "s1" v100 (proof_of v100)) sample
    = Success tt [Emit (PaymentExecuted "s1" "r1" bob)]
  ∧ receipt (executePayment (at_ bob 9) "s1" v100 (proof_of v100))
      (commit (executePayment (at_ bob 9) "s1" v100 (proof_of v100)) sample)
    = Success tt [Emit (PaymentExecuted "s1" "r1" bob)]
  ∧ Subscription.lastPaymentTimestamp
      (subscriptionOf
         (commit (executePayment (at_ bob 9) "s1" v100 (proof_of v100))
            (commit (executePayment (at_ bob 9) "s1" v100 (proof_of v100)) sample))
         "s1") = 9.
Proof.
  destruct (executePayment_repeatable (at_ bob 9) (at_ bob 9) sample "s1"
              v100 (proof_of v100) v100 (proof_of v100)
              [Emit (PaymentExecuted "s1" "r1" bob)] 100)
    as [Hagain Htime]; [run_vm..|].
  split_and!; [run_vm|exact Hagain|exact Htime].
Defined.

Lemma disable_authorization_witness :
  disableRule (at_ bob 7) "r1" sample
    = Reverted (RequireFailed "Only creator can disable rule") sample []
  ∧ PaymentRule.isActive
      (paymentRules (commit (disableRule (at_ alice 7) "r1") sample) !!! "r1")
    = false
  ∧ disableSubscription (at_ alice 7) "s1" sample
    = Reverted (RequireFailed "Only subscriber can disable subscription") sample []
  ∧ Subscription.isActive
      (subscriptions (commit (disableSubscription (at_ carol 7) "s1") sample)
       !!! "s1") = false.
Proof.
  destruct (disable_authorization (at_ bob 7) sample "r1" "s1") as [Hrule _];
    destruct Hrule as [Hother _]; [run_vm|].
  destruct (disable_authorization (at_ alice 7) sample "r1" "s1")
    as [Hrule Hsub].
  destruct Hrule as [_ Hcreator]; [run_vm|].
  destruct Hsub as [Hstranger _]; [run_vm|].
  destruct (disable_authorization (at_ carol 7) sample "r1" "s1") as [_ Hsub];
    destruct Hsub as [_ Hsubscriber]; [run_vm|].
  destruct Hother as (_ & Ho & _); [run_vm|].
  destruct Hcreator as (_ & Hc); [run_vm|].
  destruct Hstranger as (_ & Hs & _); [run_vm|].
  destruct Hsubscriber as (_ & Hb); [run_vm|].
  by split_and!.
Defined.

Lemma createSubscription_ignores_caller_witness :
  createSubscription (at_ alice 7) "s2" "r1" carol sample
    = createSubscription (at_ bob 8) "s2" "r1" carol sample
  ∧ receipt (createSubscription (at_ alice 7) "s2" "r1" carol) sample
    = Success tt [Emit (SubscriptionCreated "s2" "r1" carol)]
  ∧ Subscription.subscriber
      (subscriptions (commit (createSubscription (at_ alice 7) "s2" "r1" carol) sample)
       !!! "s2") = carol.
Proof.
  destruct (createSubscription_ignores_caller (at_ alice 7) (at_ bob 8) sample
              "s2" "r1" carol) as (Hsame & _ & Hbind).
  destruct Hbind as [Hok Hwho]; [run_vm..|].
  by split_and!.
Defined.

Lemma failing_call_no_mutation_witness :
  receipt (executePayment (at_ bob 9) "s1" v100 (proof_of v100)) sample
    = Success tt [Emit (PaymentExecuted "s1" "r1" bob)]
  ∧ dispatch (at_ bob 9) (ExecutePayment "s1" v100 (tampered (proof_of v100))) sample
    = Reverted CheckSignaturesReverted sample []
  ∧ transact sample (at_ bob 9, ExecutePayment "s1" v100 (tampered (proof_of v100)))
    = sample
  ∧ transact sample (at_ bob 9, CreatePaymentRule "r1" 8 [Byte.x01] 5 carol "again")
    = sample.
Proof.
  destruct (failing_call_no_mutation (at_ bob 9)
              (ExecutePayment "s1" v100 (tampered (proof_of v100))) sample)
    as (_ & _ & Hproof).
  destruct (Hproof "s1" v100 (tampered (proof_of v100)))
    as (_ & Hrev & Hsame); [run_vm..|].
  destruct (failing_call_no_mutation (at_ bob 9)
              (CreatePaymentRule "r1" 8 [Byte.x01] 5 carol "again") sample)
    as (_ & Hfailed & _).
  split_and!; [run_vm|exact Hrev|exact Hsame|].
  apply (Hfailed (RequireFailed "Rule already exists")). run_vm.
Defined.

Lemma createSubscription_referential_witness :
  createSubscription (at_ carol 7) "s2" "r9" carol sample
    = Reverted (RequireFailed "Rule does not exist") sample []
  ∧ createSubscription (at_ carol 8) "s2" "r1" carol
      (commit (disableRule (at_ alice 7) "r1") sample)
    = Reverted (RequireFailed "Rule is not active")
        (commit (disableRule (at_ alice 7) "r1") sample) []
  ∧ createSubscription (at_ carol 7) "s1" "r9" carol sample
    = Reverted (RequireFailed "Subscription already exists") sample [].
Proof.
  destruct (createSubscription_referential (at_ carol 7) sample "s2" "r9" carol)
    as (_ & Hmissing & _).
  destruct (createSubscription_referential (at_ carol 8)
              (commit (disableRule (at_ alice 7) "r1") sample) "s2" "r1" carol)
    as (_ & _ & Hinactive).
  destruct (createSubscription_referential (at_ carol 7) sample "s1" "r9" carol)
    as (Hdup & _).
  destruct Hmissing as (_ & Hm & _); [run_vm..|].
  destruct Hinactive as (_ & Hi & _); [run_vm..|].
  destruct Hdup as (_ & Hd & _); [run_vm|].
  by split_and!.
Defined.

(** C7 as stated fails where the subscription id is already in use: the
    rule "r9" does not exist, and the call fails [DuplicateId], not
    [NotFound]. *)
Lemma createSubscription_missing_rule_counterexample :
  ruleExists sample "r9" = false
  ∧ failsWith (createSubscription (at_ carol 7) "s1" "r9" carol) sample DuplicateId
  ∧ ¬ failsWith (createSubscription (at_ carol 7) "s1" "r9" carol) sample NotFound.
Proof.
  split_and!.
  - run_vm.
  - exists (RequireFailed "Subscription already exists"). split; run_vm.
  - intros (f & Hrun & Htax). vm_compute in Hrun. injection Hrun as <-.
    vm_compute in Htax. discriminate.
Defined.

Lemma empty_id_created_twice_witness :
  receipt (createPaymentRule (at_ bob 6) "" 8 [Byte.x02] 5 carol "second")
    (commit (createPaymentRule (at_ alice 5) "" 7 [Byte.x01] 100 bob "first")
       deployed)
  = Success tt [AllowThis 8; MakePubliclyDecryptable 8;
                Emit (PaymentRuleCreated "" bob)]
  ∧ paymentRules
      (commit (createPaymentRule (at_ bob 6) "" 8 [Byte.x02] 5 carol "second")
         (commit (createPaymentRule (at_ alice 5) "" 7 [Byte.x01] 100 bob "first")
            deployed)) !!! ""
    = PaymentRule.mk "" 8 5 carol "second" bob 6 true
  ∧ subscriptions
      (commit (createSubscription (at_ bob 8) "" "r1" bob)
         (commit (createSubscription (at_ alice 7) "" "r1" alice) sample)) !!! ""
    = Subscription.mk "" "r1" bob 0 true.
Proof.
  destruct (empty_id_created_twice (at_ alice 5) (at_ bob 6)
              7 [Byte.x01] 100 bob "first" 7 8 [Byte.x02] 5 carol "second" 8)
    as [(_ & Hsecond & Hstored) Hsubs]; [run_vm..|].
  destruct (Hsubs sample "r1" alice bob) as (_ & _ & Hsub); [run_vm..|].
  by split_and!.
Defined.

Lemma empty_id_rule_replaced_witness :
  PaymentRule.creator
    (paymentRules
       (replay [(at_ alice 5, CreatePaymentRule "" 7 [Byte.x01] 100 bob "first")]
          deployed) !!! "") = alice
  ∧ PaymentRule.creator
      (paymentRules
         (replay [(at_ alice 5, CreatePaymentRule "" 7 [Byte.x01] 100 bob "first");
                  (at_ bob 6, CreatePaymentRule "" 8 [Byte.x02] 5 carol "second")]
            deployed) !!! "") = bob.
Proof.
  destruct (empty_id_rule_replaced (at_ alice 5) (at_ bob 6)
              7 [Byte.x01] 100 bob "first" 7 8 [Byte.x02] 5 carol "second" 8)
    as (Hfirst & Hsecond & _); [run_vm..|].
  split; [by rewrite Hfirst|by rewrite Hsecond].
Defined.

Lemma empty_id_listed_not_retrievable_witness :
  receipt getAllRuleIds
    (replay [(at_ alice 5, CreatePaymentRule "" 7 [Byte.x01] 100 bob "first")]
       deployed) = Success [""] []
  ∧ receipt (getPaymentRule "")
      (replay [(at_ alice 5, CreatePaymentRule "" 7 [Byte.x01] 100 bob "first")]
         deployed) = Failed (RequireFailed "Rule does not exist").
Proof.
  destruct (empty_id_listed_not_retrievable (at_ alice 5)
              7 [Byte.x01] 100 bob "first" 7)
    as (_ & Hlist & Hget); [run_vm..|].
  by split.
Defined.

(** The end-to-end scenario: rule "r1" with public threshold 50 and
    recipient Alice, subscription "s1" for Bob, a payment on a verified
    clear value of 60 in a transaction at time 30. *)
Example end_to_end_scenario :
  receipt (executePayment (at_ carol 30) "s1" (enc Byte.x3c)
             (proof_of (enc Byte.x3c)))
    (replay [(at_ carol 10, CreatePaymentRule "r1" 7 [Byte.x01] 50 alice "");
             (at_ carol 20, CreateSubscription "s1" "r1" bob)] deployed)
  = Success tt [Emit (PaymentExecuted "s1" "r1" alice)]
  ∧ subscriptions
      (replay [(at_ carol 10, CreatePaymentRule "r1" 7 [Byte.x01] 50 alice "");
               (at_ carol 20, CreateSubscription "s1" "r1" bob);
               (at_ carol 30, ExecutePayment "s1" (enc Byte.x3c)
                                (proof_of (enc Byte.x3c)))] deployed) !!! "s1"
    = Subscription.mk "s1" "r1" bob 30 true.
Proof. split; run_vm. Qed.

Lemma createPaymentRule_then_get_witness :
  receipt (getPaymentRule "r2")
    (commit (createPaymentRule (at_ bob 7) "r2" 9 [Byte.x01] 40 carol "gym")
       sample)
  = Success ("r2", 40, carol, "gym", bob, 7, true) []
  ∧ receipt getAllRuleIds
      (commit (createPaymentRule (at_ bob 7) "r2" 9 [Byte.x01] 40 carol "gym")
         sample)
    = Success ["r1"; "r2"] [].
Proof.
  destruct (createPaymentRule_then_get (at_ bob 7) sample "r2" 9 [Byte.x01] 40
              carol "gym"
              [AllowThis 9; MakePubliclyDecryptable 9;
               Emit (PaymentRuleCreated "r2" bob)])
    as (Hget & Hall & _); [run_vm..|].
  split; [exact Hget|exact Hall].
Defined.

Lemma createSubscription_then_get_witness :
  receipt (getSubscription "s2")
    (commit (createSubscription (at_ alice 7) "s2" "r1" bob) sample)
  = Success ("s2", "r1", bob, 0, true) [].
Proof.
  apply (createSubscription_then_get (at_ alice 7) sample "s2" "r1" bob
           [Emit (SubscriptionCreated "s2" "r1" bob)]); run_vm.
Defined.

Lemma createSubscription_indexes_witness :
  receipt (getRuleSubscriptions "r1")
    (commit (createSubscription (at_ alice 7) "s2" "r1" bob) sample)
  = Success ["s1"; "s2"] []
  ∧ receipt getAllSubscriptionIds
      (commit (createSubscription (at_ alice 7) "s2" "r1" bob) sample)
    = Success ["s1"; "s2"] [].
Proof.
  destruct (createSubscription_indexes (at_ alice 7) sample "s2" "r1" bob
              [Emit (SubscriptionCreated "s2" "r1" bob)])
    as (Hrule & Hall & _); [run_vm|].
  split; [exact Hrule|exact Hall].
Defined.

Lemma executePayment_ignores_sender_witness :
  executePayment (at_ alice 9) "s1" v100 (proof_of v100) sample
  = executePayment (at_ carol 9) "s1" v100 (proof_of v100) sample.
Proof.
  apply (executePayment_ignores_sender (at_ alice 9) (at_ carol 9)). run_vm.
Defined.

Lemma executePayment_frame_witness :
  paymentRules (commit (executePayment (at_ bob 9) "s1" v100 (proof_of v100)) sample)
  = paymentRules sample
  ∧ subscriptions
      (commit (executePayment (at_ bob 9) "s1" v100 (proof_of v100)) sample)
    !!! "s1"
    = Subscription.mk "s1" "r1" carol 9 true.
Proof.
  destruct (executePayment_frame (at_ bob 9) sample "s1" v100 (proof_of v100)
              [Emit (PaymentExecuted "s1" "r1" bob)])
    as (Hrules & _ & _ & _ & _ & Hsub); [run_vm|].
  split; [exact Hrules|]. rewrite Hsub. run_vm.
Defined.

Lemma disable_idempotent_witness :
  commit (disableRule (at_ alice 8) "r1") (commit (disableRule (at_ alice 7) "r1") sample)
  = commit (disableRule (at_ alice 7) "r1") sample
  ∧ commit (disableSubscription (at_ carol 8) "s1")
      (commit (disableSubscription (at_ carol 7) "s1") sample)
    = commit (disableSubscription (at_ carol 7) "s1") sample.
Proof.
  destruct (disable_idempotent (at_ alice 7) (at_ alice 8) sample "r1" "s1")
    as [Hrule _]; [run_vm|].
  destruct (disable_idempotent (at_ carol 7) (at_ carol 8) sample "r1" "s1")
    as [_ Hsub]; [run_vm|].
  destruct (Hrule []) as [_ Hr]; [run_vm|].
  destruct (Hsub []) as [_ Hs]; [run_vm|].
  by split.
Defined.

Lemma rule_fields_fixed_witness :
  PaymentRule.creator
    (paymentRules
       (replay [(at_ alice 7, DisableRule "r1");
                (at_ bob 8, CreatePaymentRule "r1" 9 [Byte.x01] 1 bob "mine")]
          sample) !!! "r1") = alice
  ∧ PaymentRule.publicThreshold
      (paymentRules
         (replay [(at_ alice 7, DisableRule "r1");
                  (at_ bob 8, CreatePaymentRule "r1" 9 [Byte.x01] 1 bob "mine")]
            sample) !!! "r1") = 100.
Proof.
  destruct (rule_fields_fixed
              [(at_ alice 7, DisableRule "r1");
               (at_ bob 8, CreatePaymentRule "r1" 9 [Byte.x01] 1 bob "mine")]
              sample "r1")
    as (_ & _ & _ & Hthr & _ & _ & Hwho & _); [run_vm|].
  split; [rewrite Hwho|rewrite Hthr]; run_vm.
Defined.

Lemma subscription_fields_fixed_witness :
  Subscription.subscriber
    (subscriptions
       (replay [(at_ bob 9, ExecutePayment "s1" v100 (proof_of v100));
                (at_ bob 10, CreateSubscription "s1" "r1" bob)] sample) !!! "s1")
  = carol.
Proof.
  destruct (subscription_fields_fixed
              [(at_ bob 9, ExecutePayment "s1" v100 (proof_of v100));
               (at_ bob 10, CreateSubscription "s1" "r1" bob)] sample "s1")
    as (_ & _ & _ & Hwho & _); [run_vm|].
  rewrite Hwho. run_vm.
Defined.

Lemma disabled_rule_blocks_forever_witness :
  receipt (createSubscription (at_ bob 9) "s2" "r1" bob)
    (replay [(at_ bob 8, ExecutePayment "s1" v100 (proof_of v100))]
       (commit (disableRule (at_ alice 7) "r1") sample))
  = Failed (RequireFailed "Rule is not active").
Proof.
  destruct (disabled_rule_blocks_forever (at_ alice 7) sample "r1" []
              [(at_ bob 8, ExecutePayment "s1" v100 (proof_of v100))])
    as (_ & _ & Hnew); [run_vm|].
  apply Hnew. run_vm.
Defined.

Lemma disabled_subscription_blocks_forever_witness :
  receipt (executePayment (at_ bob 9) "s1" v100 (proof_of v100))
    (replay [(at_ carol 8, CreateSubscription "s1" "r1" carol)]
       (commit (disableSubscription (at_ carol 7) "s1") sample))
  = Failed (RequireFailed "Subscription is not active").
Proof.
  apply (disabled_subscription_blocks_forever (at_ carol 7) sample "s1" []).
  run_vm.
Defined.

Lemma threshold_beyond_uint32_never_met_witness :
  ∃ f, receipt (executePayment (at_ bob 9) "s" (replicate 32 Byte.xff)
                  (proof_of (replicate 32 Byte.xff)))
         (replay [(at_ carol 6, CreateSubscription "s" "big" carol)]
            (replay [(at_ alice 5,
                      CreatePaymentRule "big" 7 [Byte.x01] (2 ^ 32) bob "")]
               deployed))
       = Failed f.
Proof.
  apply (threshold_beyond_uint32_never_met
           [(at_ carol 6, CreateSubscription "s" "big" carol)]
           (replay [(at_ alice 5,
                     CreatePaymentRule "big" 7 [Byte.x01] (2 ^ 32) bob "")]
              deployed) "big"); run_vm.
Defined.

Lemma lastPaymentTimestamp_written_by_payment_witness :
  Subscription.lastPaymentTimestamp
    (subscriptions
       (transact sample (at_ bob 9, ExecutePayment "s1" v100 (proof_of v100)))
     !!! "s1") = 9.
Proof.
  destruct (lastPaymentTimestamp_written_by_payment sample (at_ bob 9)
              (ExecutePayment "s1" v100 (proof_of v100)) "s1")
    as [_ Htime]; [run_vm..|].
  exact Htime.
Defined.

Lemma referential_integrity_witness :
  ruleExists (replay history deployed) "r1" = true
  ∧ PaymentRule.ruleId (ruleOf (replay history deployed) "s1") = "r1".
Proof.
  destruct (referential_integrity history "s1") as (_ & Hrule & Hid & _);
    [run_vm|].
  split; [|rewrite Hid; run_vm].
  replace "r1" with (Subscription.ruleId (subscriptionOf (replay history deployed) "s1"))
    by run_vm.
  exact Hrule.
Defined.

Lemma executePayment_malformed_clear_value_witness :
  executePayment (at_ bob 9) "s1" [] (proof_of []) sample
  = Reverted AbiDecodeReverted sample []
  ∧ executePayment (at_ bob 9) "s1" (replicate 32 Byte.xff)
      (proof_of (replicate 32 Byte.xff)) sample
    = Reverted AbiDecodeReverted sample [].
Proof.
  split.
  - apply executePayment_malformed_clear_value; try run_vm.
    left. cbn. lia.
  - apply executePayment_malformed_clear_value; try run_vm.
    right. run_vm.
Defined.

End Runs.
